(** * Packet transport and command sender of the CySync communication module

    A shallow embedding of [writePacket] and [sendData] together with the
    error types of [src/errors/index.ts].  The connection, the timers and
    the promise of one [writePacket] call are explicit state; the device
    and the clock act through a list of events.  Calls of the logger are
    left out: they change nothing the code reads. *)

From Stdlib Require Import ZArith List String Bool Lia.
Import ListNotations.
Open Scope string_scope.
Open Scope list_scope.
Open Scope Z_scope.

(** ** Errors ([src/errors/index.ts]) *)

Module Errors.

Inductive DeviceErrorType : Type :=
| NOT_CONNECTED
| DEVICE_DISCONNECTED_IN_FLOW
| CONNECTION_CLOSED
| CONNECTION_NOT_OPEN
| WRITE_ERROR
| TIMEOUT_ERROR
| WRITE_TIMEOUT
| READ_TIMEOUT
| FIRMWARE_SIZE_LIMIT_EXCEEDED
| WRONG_FIRMWARE_VERSION
| WRONG_HARDWARE_VERSION
| WRONG_MAGIC_NUMBER
| SIGNATURE_NOT_VERIFIED
| LOWER_FIRMWARE_VERSION
| NO_WORKING_PACKET_VERSION
| UNKNOWN_COMMUNICATION_ERROR.

(** The string each member of the enum stands for. *)
Definition enumValue (t : DeviceErrorType) : string :=
  match t with
  | NOT_CONNECTED => "HD_INIT_1001"
  | DEVICE_DISCONNECTED_IN_FLOW => "HD_INIT_1010"
  | CONNECTION_CLOSED => "HD_INIT_1011"
  | CONNECTION_NOT_OPEN => "HD_INIT_1012"
  | WRITE_ERROR => "HD_COM_1007"
  | TIMEOUT_ERROR => "HD_COM_1050"
  | WRITE_TIMEOUT => "HD_COM_1051"
  | READ_TIMEOUT => "HD_COM_1052"
  | FIRMWARE_SIZE_LIMIT_EXCEEDED => "HD_FIRM_1001"
  | WRONG_FIRMWARE_VERSION => "HD_FIRM_1002"
  | WRONG_HARDWARE_VERSION => "HD_FIRM_1003"
  | WRONG_MAGIC_NUMBER => "HD_FIRM_1004"
  | SIGNATURE_NOT_VERIFIED => "HD_FIRM_1005"
  | LOWER_FIRMWARE_VERSION => "HD_FIRM_1006"
  | NO_WORKING_PACKET_VERSION => "HD_INIT_2006"
  | UNKNOWN_COMMUNICATION_ERROR => "HD_COM_5500"
  end.

Record ErrorObject : Type := mkErrorObject
  { eo_message : string;
    eo_doRetry : bool }.

Definition errorObjects (t : DeviceErrorType) : ErrorObject :=
  match t with
  | NOT_CONNECTED =>
      mkErrorObject "No device connected" false
  | DEVICE_DISCONNECTED_IN_FLOW =>
      mkErrorObject "Device disconnected in flow" false
  | CONNECTION_CLOSED =>
      mkErrorObject "Connection was closed while in process" false
  | CONNECTION_NOT_OPEN =>
      mkErrorObject "Connection was not open" false
  | WRITE_ERROR =>
      mkErrorObject "Unable to write packet to the device" true
  | TIMEOUT_ERROR =>
      mkErrorObject "Timeout Error due to write/read" true
  | WRITE_TIMEOUT =>
      mkErrorObject "Did not receive ACK of sent packet on time" true
  | READ_TIMEOUT =>
      mkErrorObject
        "Did not receive the expected data from device on time" true
  | FIRMWARE_SIZE_LIMIT_EXCEEDED =>
      mkErrorObject "Firmware Size Limit Exceed" false
  | WRONG_FIRMWARE_VERSION =>
      mkErrorObject "Wrong Firmware version" false
  | WRONG_HARDWARE_VERSION =>
      mkErrorObject "Wrong Hardware version" false
  | WRONG_MAGIC_NUMBER =>
      mkErrorObject "Wrong Magic Number" false
  | SIGNATURE_NOT_VERIFIED =>
      mkErrorObject "Signature not verified" false
  | LOWER_FIRMWARE_VERSION =>
      mkErrorObject "Lower Firmware version" false
  | NO_WORKING_PACKET_VERSION =>
      mkErrorObject "No working packet version" false
  | UNKNOWN_COMMUNICATION_ERROR =>
      mkErrorObject "Unknown Error at communication module" true
  end.

Record DeviceError : Type := mkDeviceError
  { code : DeviceErrorType;
    errorType : DeviceErrorType;
    message : string;
    doRetry : bool }.

(** [a || b] on enum members: a member is falsy when its string is empty. *)
Definition orElse (a b : DeviceErrorType) : DeviceErrorType :=
  if String.eqb (enumValue a) "" then b else a.

(** [new DeviceError(errorCode)] *)
Definition newDeviceError (errorCode : DeviceErrorType) : DeviceError :=
  let code := orElse errorCode UNKNOWN_COMMUNICATION_ERROR in
  let errorType := orElse errorCode UNKNOWN_COMMUNICATION_ERROR in
  {| code := code;
     errorType := errorType;
     message := eo_message (errorObjects errorType);
     doRetry := eo_doRetry (errorObjects errorType) |}.

(** [list.includes(t)]: strict equality of the enum strings. *)
Definition includes (l : list DeviceErrorType) (t : DeviceErrorType) : bool :=
  existsb (fun x => String.eqb (enumValue x) (enumValue t)) l.

End Errors.
Export Errors.

(** ** Configuration and wire types *)

(** Modelled from the spec: [PacketVersion] and [PacketVersionMap] live in
    [../utils/versions], which is not among the sources; the spec describes
    an enumerated protocol version of which [writePacket] singles out v2. *)
Inductive PacketVersion : Type := v1 | v2 | v3.

Definition PacketVersion_eqb (a b : PacketVersion) : bool :=
  match a, b with
  | v1, v1 | v2, v2 | v3, v3 => true
  | _, _ => false
  end.

(** Modelled from the spec: the tables of [../config] are not among the
    sources; a constants table supplies the acknowledgment wait, a command
    table the ACK and NACK codes. *)
Record Constants : Type := mkConstants { ACK_TIME : Z }.
Record Commands : Type := mkCommands { ACK_PACKET : Z; NACK_PACKET : Z }.

Record Config : Type := mkConfig
  { constants_v1 : Constants;
    constants_v2 : Constants;
    commands_v1 : Commands }.

(** A packet is an opaque encoded unit; the legacy encoder yields strings. *)
Definition Packet : Type := string.

(** The decoded record an ['ack'] notification carries. *)
Record PacketData : Type := mkPacketData { commandType : Z }.

(** ** Promises *)

Inductive Eventual (E : Type) : Type :=
| Fulfilled
| Rejected (e : E)
| Pending.
Arguments Fulfilled {E}.
Arguments Rejected {E} e.
Arguments Pending {E}.

Definition settled {E} (p : Eventual E) : bool :=
  match p with Pending => false | _ => true end.

(** [resolve()] and [reject(e)] of a promise: only the first one counts. *)
Definition resolve {E} (p : Eventual E) : Eventual E :=
  match p with Pending => Fulfilled | _ => p end.

Definition reject {E} (e : E) (p : Eventual E) : Eventual E :=
  match p with Pending => Rejected e | _ => p end.

(** What a call of [writePacket] hands back: it throws before creating the
    promise, or it returns the promise. *)
Inductive Completion : Type :=
| Throws (e : DeviceError)
| Returns (p : Eventual DeviceError).

(** ** The connection and the event loop *)

Inductive EventName : Type := ack | close.

(** The closures one call of [writePacket] registers, named by the call. *)
Inductive Handler : Type :=
| dataListenerOf (call : nat)
| onCloseOf (call : nat).

Definition EventName_eqb (a b : EventName) : bool :=
  match a, b with
  | ack, ack | close, close => true
  | _, _ => false
  end.

Definition Handler_eqb (a b : Handler) : bool :=
  match a, b with
  | dataListenerOf i, dataListenerOf j => Nat.eqb i j
  | onCloseOf i, onCloseOf j => Nat.eqb i j
  | _, _ => false
  end.

Definition Listener : Type := (EventName * Handler)%type.

Definition Listener_eqb (a b : Listener) : bool :=
  EventName_eqb (fst a) (fst b) && Handler_eqb (snd a) (snd b).

(** Modelled from the spec: [DeviceConnectionInterface] is declared in
    [./types], which is not among the sources.  The spec gives it a
    connectivity query, an asynchronous write and listener registration;
    the listener list behaves as a Node event emitter. *)
Record Connection : Type := mkConnection
  { connected : bool;
    listeners : list Listener;
    written : list Packet }.

(** The world a call runs in: the connection, the clock in milliseconds, the
    timers still scheduled (handle and deadline) and the record of the
    [writePacket] calls made so far. *)
Record World : Type := mkWorld
  { connection : Connection;
    now : Z;
    timers : list (nat * Z);
    invocations : list (Packet * Completion) }.

Definition withConnection (f : Connection -> Connection) (w : World) : World :=
  {| connection := f (connection w);
     now := now w;
     timers := timers w;
     invocations := invocations w |}.

Definition isConnected (w : World) : bool := connected (connection w).

Definition addListener (ev : EventName) (h : Handler) (w : World) : World :=
  withConnection
    (fun c => {| connected := connected c;
                 listeners := listeners c ++ [(ev, h)];
                 written := written c |}) w.

(** Removes the most recently added instance of the listener, if any. *)
Fixpoint removeLast (x : Listener) (l : list Listener) : list Listener :=
  match l with
  | [] => []
  | y :: l' =>
      if existsb (Listener_eqb x) l' then y :: removeLast x l'
      else if Listener_eqb x y then l'
      else y :: l'
  end.

Definition removeListener (ev : EventName) (h : Handler) (w : World) : World :=
  withConnection
    (fun c => {| connected := connected c;
                 listeners := removeLast (ev, h) (listeners c);
                 written := written c |}) w.

Definition hasListener (ev : EventName) (h : Handler) (w : World) : bool :=
  existsb (Listener_eqb (ev, h)) (listeners (connection w)).

(** [connection.write(packet)]: the packet goes out; the result comes later. *)
Definition write (packet : Packet) (w : World) : World :=
  withConnection
    (fun c => {| connected := connected c;
                 listeners := listeners c;
                 written := written c ++ [packet] |}) w.

Definition setConnected (b : bool) (w : World) : World :=
  withConnection
    (fun c => {| connected := b;
                 listeners := listeners c;
                 written := written c |}) w.

Definition setTimeout (handle : nat) (delay : Z) (w : World) : World :=
  {| connection := connection w;
     now := now w;
     timers := timers w ++ [(handle, now w + delay)];
     invocations := invocations w |}.

Definition clearTimeout (handle : nat) (w : World) : World :=
  {| connection := connection w;
     now := now w;
     timers := filter (fun t => negb (Nat.eqb (fst t) handle)) (timers w);
     invocations := invocations w |}.

Definition advance (ms : Z) (w : World) : World :=
  {| connection := connection w;
     now := now w + Z.max 0 ms;
     timers := timers w;
     invocations := invocations w |}.

(** The timer is due when it is still scheduled and its deadline has come. *)
Definition timerDue (handle : nat) (w : World) : bool :=
  existsb (fun t => Nat.eqb (fst t) handle && (snd t <=? now w)) (timers w).

Definition record (packet : Packet) (c : Completion) (w : World) : World :=
  {| connection := connection w;
     now := now w;
     timers := timers w;
     invocations := invocations w ++ [(packet, c)] |}.

(** What the device, the operating system and the clock do while a call is
    in flight. *)
Inductive Event : Type :=
| EmitAck (ePacket : PacketData)
| EmitClose (err : option string)
| WriteFails (error : string)
| Elapse (ms : Z)
| SetConnected (b : bool).

(** ** Packet transport: [writePacket] *)

(** The variables of one call that its closures share: which call it is, the
    command table in use, the timer handle, the promise, and whether the
    promise of [connection.write] is still unsettled. *)
Record Call : Type := mkCall
  { self : nat;
    usableCommands : Commands;
    timeout : option nat;
    promise : Eventual DeviceError;
    writeInFlight : bool }.

Definition State : Type := (World * Call)%type.

Definition withPromise (f : Eventual DeviceError -> Eventual DeviceError)
    (c : Call) : Call :=
  {| self := self c;
     usableCommands := usableCommands c;
     timeout := timeout c;
     promise := f (promise c);
     writeInFlight := writeInFlight c |}.

Definition withTimeout (t : nat) (c : Call) : Call :=
  {| self := self c;
     usableCommands := usableCommands c;
     timeout := Some t;
     promise := promise c;
     writeInFlight := writeInFlight c |}.

Definition withWriteInFlight (b : bool) (c : Call) : Call :=
  {| self := self c;
     usableCommands := usableCommands c;
     timeout := timeout c;
     promise := promise c;
     writeInFlight := b |}.

(** [if (timeout) { clearTimeout(timeout); }] *)
Definition clearIfSet (c : Call) (w : World) : World :=
  match timeout c with
  | Some t => clearTimeout t w
  | None => w
  end.

Definition dataListener (ePacket : PacketData) (s : State) : State :=
  let (w, c) := s in
  let w := clearIfSet c w in
  let w := removeListener ack (dataListenerOf (self c)) w in
  let w := removeListener close (onCloseOf (self c)) w in
  if commandType ePacket =? ACK_PACKET (usableCommands c) then
    (w, withPromise resolve c)
  else if commandType ePacket =? NACK_PACKET (usableCommands c) then
    (w, withPromise (reject (newDeviceError WRITE_ERROR)) c)
  else
    (w, c).

Definition onClose (err : option string) (s : State) : State :=
  let (w, c) := s in
  let w := clearIfSet c w in
  let w := removeListener ack (dataListenerOf (self c)) w in
  let w := removeListener close (onCloseOf (self c)) w in
  (w, withPromise (reject (newDeviceError CONNECTION_CLOSED)) c).

(** The [catch] callback on the promise of [connection.write]. *)
Definition onWriteError (error : string) (s : State) : State :=
  let (w, c) := s in
  let w := clearIfSet c w in
  let w := removeListener ack (dataListenerOf (self c)) w in
  let w := removeListener close (onCloseOf (self c)) w in
  (w, withPromise (reject (newDeviceError WRITE_ERROR)) c).

(** The callback handed to [setTimeout]. *)
Definition onTimeout (s : State) : State :=
  let (w, c) := s in
  let w := removeListener ack (dataListenerOf (self c)) w in
  let w := removeListener close (onCloseOf (self c)) w in
  (w, withPromise (reject (newDeviceError WRITE_TIMEOUT)) c).

(** One turn of the event loop.  A notification reaches a closure only
    while it is registered, the [catch] callback runs at most once, and the
    timer callback runs when its deadline has come and it was not cleared;
    a timer that fired is no longer scheduled. *)
Definition deliver (ev : Event) (s : State) : State :=
  let (w, c) := s in
  match ev with
  | EmitAck ePacket =>
      if hasListener ack (dataListenerOf (self c)) w
      then dataListener ePacket s else s
  | EmitClose err =>
      if hasListener close (onCloseOf (self c)) w
      then onClose err s else s
  | WriteFails error =>
      if writeInFlight c
      then onWriteError error (w, withWriteInFlight false c) else s
  | Elapse ms =>
      let w := advance ms w in
      match timeout c with
      | Some t =>
          if timerDue t w then onTimeout (clearTimeout t w, c) else (w, c)
      | None => (w, c)
      end
  | SetConnected b => (setConnected b w, c)
  end.

Definition run (events : list Event) (s : State) : State :=
  fold_left (fun s ev => deliver ev s) events s.

(** The body of [new Promise((resolve, reject) => ...)]. *)
Definition executor (usableConstants : Constants) (packet : Packet)
    (s : State) : State :=
  let (w, c) := s in
  let w := addListener ack (dataListenerOf (self c)) w in
  let w := addListener close (onCloseOf (self c)) w in
  let w := write packet w in
  let c := withWriteInFlight true c in
  let t := self c in
  let w := setTimeout t (ACK_TIME usableConstants) w in
  (w, withTimeout t c).

(** [writePacket(connection, packet, version)] against the events that
    follow the call.  The result is what the caller has in hand once the
    events have been delivered; the call and its result are appended to
    the record of invocations. *)
Definition writePacket (cfg : Config) (w : World) (packet : Packet)
    (version : PacketVersion) (events : list Event) : World * Completion :=
  let usableConstants := constants_v1 cfg in
  let usableCommands := commands_v1 cfg in
  if negb (isConnected w) then
    let e := newDeviceError CONNECTION_CLOSED in
    (record packet (Throws e) w, Throws e)
  else
    let usableConstants :=
      if PacketVersion_eqb version v2 then constants_v2 cfg
      else usableConstants in
    let c := {| self := List.length (invocations w);
                usableCommands := usableCommands;
                timeout := None;
                promise := Pending;
                writeInFlight := false |} in
    let (w, c) := run events (executor usableConstants packet (w, c)) in
    (record packet (Returns (promise c)) w, Returns (promise c)).

(** A connection with nothing registered on it. *)
Definition idle (w : World) : bool :=
  match listeners (connection w), timers w with
  | [], [] => true
  | _, _ => false
  end.

(** A connection nothing has happened on yet. *)
Definition freshWorld (isOpen : bool) : World :=
  {| connection := {| connected := isOpen; listeners := []; written := [] |};
     now := 0;
     timers := [];
     invocations := [] |}.

(** Tables to run examples with. *)
Definition sampleConfig : Config :=
  {| constants_v1 := {| ACK_TIME := 2000 |};
     constants_v2 := {| ACK_TIME := 500 |};
     commands_v1 := {| ACK_PACKET := 1; NACK_PACKET := 7 |} |}.

(** ** Command sender: [sendData] *)

(** What a [catch] clause may receive: a [DeviceError], or some other value
    of which only the truthiness matters. *)
Inductive Thrown : Type :=
| ThrownDeviceError (e : DeviceError)
| ThrownOther (isTruthy : bool).

Definition truthy (x : Thrown) : bool :=
  match x with
  | ThrownDeviceError _ => true
  | ThrownOther b => b
  end.

(** [await writePacket(...)] inside [try]: a throw and a rejection both land
    in the [catch] clause; a promise that never settles suspends for good. *)
Definition await (c : Completion) : Eventual Thrown :=
  match c with
  | Throws e => Rejected (ThrownDeviceError e)
  | Returns Fulfilled => Fulfilled
  | Returns (Rejected e) => Rejected (ThrownDeviceError e)
  | Returns Pending => Pending
  end.

Definition connectionFatal : list DeviceErrorType :=
  [CONNECTION_CLOSED; CONNECTION_NOT_OPEN; NOT_CONNECTED].

Section Sender.

Variable cfg : Config.

(** The encoder of [../xmodem/legacy] is not among the sources. *)
Variable xmodemEncode : string -> Z -> PacketVersion -> list Packet.

(** [env n] holds the events that follow the [n]-th call of
    [writePacket] on the connection. *)
Variable env : nat -> list Event.

(** The [while (tries <= _maxTries)] loop and the code after it.  [fuel]
    bounds the number of times the loop condition is evaluated; [None]
    means the bound was too small. *)
Fixpoint retry (fuel : nat) (d : Packet) (version : PacketVersion)
    (_maxTries tries : Z) (firstError : option Thrown) (w : World)
    : option (World * Eventual Thrown) :=
  match fuel with
  | O => None
  | S fuel' =>
      if tries <=? _maxTries then
        let (w, c) :=
          writePacket cfg w d version
            (env (List.length (invocations w))) in
        match await c with
        | Fulfilled => Some (w, Fulfilled)
        | Pending => Some (w, Pending)
        | Rejected e =>
            let tries :=
              match e with
              | ThrownDeviceError de =>
                  if includes connectionFatal (errorType de)
                  then _maxTries else tries
              | ThrownOther _ => tries
              end in
            let firstError :=
              match firstError with
              | Some x => if truthy x then firstError else Some e
              | None => Some e
              end in
            retry fuel' d version _maxTries (tries + 1) firstError w
        end
      else
        match firstError with
        | Some x =>
            if truthy x then Some (w, Rejected x)
            else Some (w, Rejected
                           (ThrownDeviceError (newDeviceError WRITE_TIMEOUT)))
        | None =>
            Some (w, Rejected
                       (ThrownDeviceError (newDeviceError WRITE_TIMEOUT)))
        end
  end.

(** The closure [packetsList.map] builds for the packet [d]. *)
Definition dataListEntry (command : Z) (version : PacketVersion)
    (maxTries : Z) (d : Packet) (w : World) : World * Eventual Thrown :=
  let tries := 1 in
  let _maxTries := if command =? 255 then 1 else maxTries in
  match retry (S (Z.to_nat _maxTries)) d version _maxTries tries None w with
  | Some r => r
  | None => (w, Pending)
  end.

(** [for (const i of dataList)] with its [try]/[catch]. *)
Fixpoint forOf (dataList : list (World -> World * Eventual Thrown))
    (w : World) : World * Eventual Thrown :=
  match dataList with
  | [] => (w, Fulfilled)
  | i :: rest =>
      let (w, r) := i w in
      match r with
      | Fulfilled => forOf rest w
      | Rejected e =>
          if truthy e then (w, Rejected e)
          else (w, Rejected
                     (ThrownDeviceError (newDeviceError WRITE_TIMEOUT)))
      | Pending => (w, Pending)
      end
  end.

(** [sendData(connection, command, data, version, maxTries = 5)] *)
Definition sendData (w : World) (command : Z) (data : string)
    (version : PacketVersion) (maxTries : option Z)
    : World * Eventual Thrown :=
  let maxTries := match maxTries with Some m => m | None => 5 end in
  let packetsList := xmodemEncode data command version in
  let dataList := map (dataListEntry command version maxTries) packetsList in
  forOf dataList w.

End Sender.

(** ** Vocabulary for the statements *)

(** A stretch of events during which no closure of the call runs: the
    connectivity may change and time may pass, as long as less than [budget]
    milliseconds go by in total. *)
Fixpoint quiet (budget : Z) (events : list Event) : bool :=
  match events with
  | [] => true
  | Elapse ms :: rest =>
      (Z.max 0 ms <? budget) && quiet (budget - Z.max 0 ms) rest
  | SetConnected _ :: rest => quiet budget rest
  | _ => false
  end.

(** The events contain a lapse of time at which [budget] milliseconds have
    gone by in total. *)
Fixpoint expires (budget : Z) (events : list Event) : bool :=
  match events with
  | [] => false
  | Elapse ms :: rest =>
      (budget <=? Z.max 0 ms) || expires (budget - Z.max 0 ms) rest
  | _ :: rest => expires budget rest
  end.

(** An event other than an acknowledgment with an unknown command code. *)
Definition knownAck (cmds : Commands) (ev : Event) : bool :=
  match ev with
  | EmitAck ePacket =>
      (commandType ePacket =? ACK_PACKET cmds)
      || (commandType ePacket =? NACK_PACKET cmds)
  | _ => true
  end.

Definition isWriteFails (ev : Event) : bool :=
  match ev with WriteFails _ => true | _ => false end.

(** The error a call failed with, if it failed. *)
Definition failureOf (c : Completion) : option DeviceError :=
  match c with
  | Throws e => Some e
  | Returns (Rejected e) => Some e
  | Returns Fulfilled => None
  | Returns Pending => None
  end.

Definition isAcked (a : Packet * Completion) : bool :=
  match snd a with Returns Fulfilled => true | _ => false end.

Definition isSettled (a : Packet * Completion) : bool :=
  match snd a with Returns Pending => false | _ => true end.

(** The call reached [connection.write]. *)
Definition wrote (a : Packet * Completion) : bool :=
  match snd a with Returns _ => true | Throws _ => false end.

Definition isFatal (c : Completion) : bool :=
  match failureOf c with
  | Some e => includes connectionFatal (errorType e)
  | None => false
  end.

(** The number of acknowledged calls in a record of invocations. *)
Definition acked (L : list (Packet * Completion)) : nat :=
  List.length (filter isAcked L).

(** The errors of the calls made since the last acknowledged one, oldest
    first: the failed attempts of the packet being sent. *)
Fixpoint failuresSinceAck (acc : list DeviceError)
    (L : list (Packet * Completion)) : list DeviceError :=
  match L with
  | [] => acc
  | a :: L' =>
      match failureOf (snd a) with
      | Some e => failuresSinceAck (acc ++ [e]) L'
      | None => failuresSinceAck [] L'
      end
  end.

(** The state right after the executor of a call made in [w0], as time and
    connectivity move on. *)
Definition armed (w0 : World) (packet : Packet) (cmds : Commands)
    (deadline t : Z) (up inflight : bool) : State :=
  let id := List.length (invocations w0) in
  ({| connection :=
        {| connected := up;
           listeners := [(ack, dataListenerOf id); (close, onCloseOf id)];
           written := written (connection w0) ++ [packet] |};
      now := t;
      timers := [(id, deadline)];
      invocations := invocations w0 |},
   {| self := id;
      usableCommands := cmds;
      timeout := Some id;
      promise := Pending;
      writeInFlight := inflight |}).

(** The state once some closure of the call has run. *)
Definition released (w0 : World) (packet : Packet) (cmds : Commands)
    (t : Z) (up inflight : bool) (p : Eventual DeviceError) : State :=
  let id := List.length (invocations w0) in
  ({| connection :=
        {| connected := up;
           listeners := [];
           written := written (connection w0) ++ [packet] |};
      now := t;
      timers := [];
      invocations := invocations w0 |},
   {| self := id;
      usableCommands := cmds;
      timeout := Some id;
      promise := p;
      writeInFlight := inflight |}).

(** How [dataListener] settles the promise for a command code. *)
Definition classify (cmds : Commands) (ePacket : PacketData)
    : Eventual DeviceError :=
  if commandType ePacket =? ACK_PACKET cmds then Fulfilled
  else if commandType ePacket =? NACK_PACKET cmds
       then Rejected (newDeviceError WRITE_ERROR)
       else Pending.

(** The constants table [writePacket] settles on for a version. *)
Definition usableConstantsFor (cfg : Config) (version : PacketVersion)
    : Constants :=
  if PacketVersion_eqb version v2 then constants_v2 cfg else constants_v1 cfg.

Definition isFailure (a : Packet * Completion) : bool :=
  match failureOf (snd a) with Some _ => true | None => false end.

(** [_maxTries] as the closure of a packet computes it. *)
Definition effectiveTries (command maxTries : Z) : Z :=
  if command =? 255 then 1 else maxTries.

(** [firstError] after one more caught value, and the value the closure
    rejects with once the loop is over. *)
Definition noteError (firstError : option Thrown) (e : Thrown)
    : option Thrown :=
  match firstError with
  | Some x => if truthy x then firstError else Some e
  | None => Some e
  end.

Definition finalError (firstError : option Thrown) : Thrown :=
  match firstError with
  | Some x =>
      if truthy x then x
      else ThrownDeviceError (newDeviceError WRITE_TIMEOUT)
  | None => ThrownDeviceError (newDeviceError WRITE_TIMEOUT)
  end.

(** The calls one packet's closure makes from the loop state
    ([tries], [firstError]) on, and how the closure ends. *)
Inductive PacketRun (d : Packet) (M : Z)
  : Z -> option Thrown -> list (Packet * Completion) -> Eventual Thrown
    -> Prop :=
| pr_exhausted tries fe :
    M < tries ->
    PacketRun d M tries fe [] (Rejected (finalError fe))
| pr_acked tries fe :
    tries <= M ->
    PacketRun d M tries fe [(d, Returns Fulfilled)] Fulfilled
| pr_hung tries fe :
    tries <= M ->
    PacketRun d M tries fe [(d, Returns Pending)] Pending
| pr_failed tries fe c e L r :
    tries <= M ->
    failureOf c = Some e ->
    PacketRun d M
      ((if includes connectionFatal (errorType e) then M else tries) + 1)
      (noteError fe (ThrownDeviceError e)) L r ->
    PacketRun d M tries fe ((d, c) :: L) r.

(** The calls a whole send makes, packet after packet. *)
Inductive Transcript (M : Z)
  : list Packet -> list (Packet * Completion) -> Eventual Thrown -> Prop :=
| tr_done : Transcript M [] [] Fulfilled
| tr_next d ps L1 L2 r :
    PacketRun d M 1 None L1 Fulfilled ->
    Transcript M ps L2 r ->
    Transcript M (d :: ps) (L1 ++ L2) r
| tr_abort d ps L x :
    PacketRun d M 1 None L (Rejected x) ->
    Transcript M (d :: ps) L (Rejected x)
| tr_hang d ps L :
    PacketRun d M 1 None L Pending ->
    Transcript M (d :: ps) L Pending.

(** The errors [writePacket] creates. *)
Definition transportError (e : DeviceError) : Prop :=
  e = newDeviceError WRITE_ERROR
  \/ e = newDeviceError CONNECTION_CLOSED
  \/ e = newDeviceError WRITE_TIMEOUT.

Definition knownPromise (p : Eventual DeviceError) : Prop :=
  match p with
  | Rejected e => transportError e
  | _ => True
  end.

Definition knownCompletion (c : Completion) : Prop :=
  match c with
  | Throws e => e = newDeviceError CONNECTION_CLOSED
  | Returns p => knownPromise p
  end.

(** Sample encoders and connections. *)
Definition twoPackets (data : string) (command : Z) (version : PacketVersion)
    : list Packet :=
  ["A"; "B"].

Definition noPackets (data : string) (command : Z) (version : PacketVersion)
    : list Packet :=
  [].

(** The device never answers. *)
Definition silent (n : nat) : list Event := [Elapse 2000].

(** The device lets the first call time out and closes during the second. *)
Definition closesOnSecond (n : nat) : list Event :=
  match n with
  | 1%nat => [EmitClose None]
  | _ => [Elapse 2000]
  end.

(** The device rejects the first call and never answers again. *)
Definition nackThenSilent (n : nat) : list Event :=
  match n with
  | 0%nat => [EmitAck (mkPacketData 7)]
  | _ => [Elapse 2000]
  end.

(** The device acknowledges every packet after five milliseconds. *)
Definition acksAll (n : nat) : list Event :=
  [Elapse 5; EmitAck (mkPacketData 1)].

(** The device answers with a command code the table does not know. *)
Definition answersUnknown (n : nat) : list Event :=
  [Elapse 5; EmitAck (mkPacketData 99); Elapse 5000].

(** ** Packet transport: the state machine *)

Lemma Listener_eqb_refl (x : Listener) : Listener_eqb x x = true.
Proof.
  destruct x as [[|] [i|i]]; unfold Listener_eqb; simpl;
    apply Nat.eqb_refl.
Qed.

(** A handle or closure compared with itself. *)
Ltac own_handle :=
  repeat (simpl; rewrite ?Listener_eqb_refl, ?Nat.eqb_refl).

Lemma executor_idle (uc : Constants) (cmds : Commands) (packet : Packet)
    (w : World) :
  idle w = true ->
  executor uc packet
    (w, {| self := List.length (invocations w);
           usableCommands := cmds;
           timeout := None;
           promise := Pending;
           writeInFlight := false |})
  = armed w packet cmds (now w + ACK_TIME uc) (now w) (isConnected w) true.
Proof.
  destruct w as [[up ls wr] t ts inv]; unfold idle; simpl.
  destruct ls; [destruct ts|]; try discriminate.
  intros _. reflexivity.
Qed.

Lemma deliver_armed_ack w0 packet cmds dl t up fl ePacket :
  deliver (EmitAck ePacket) (armed w0 packet cmds dl t up fl)
  = released w0 packet cmds t up fl (classify cmds ePacket).
Proof.
  unfold armed, released, classify, deliver, hasListener, dataListener,
    clearIfSet, clearTimeout, removeListener, withConnection.
  own_handle.
  destruct (commandType ePacket =? ACK_PACKET cmds);
    [reflexivity|].
  destruct (commandType ePacket =? NACK_PACKET cmds); reflexivity.
Qed.

Lemma deliver_armed_close w0 packet cmds dl t up fl err :
  deliver (EmitClose err) (armed w0 packet cmds dl t up fl)
  = released w0 packet cmds t up fl
      (Rejected (newDeviceError CONNECTION_CLOSED)).
Proof.
  unfold armed, released, deliver, hasListener, onClose,
    clearIfSet, clearTimeout, removeListener, withConnection.
  own_handle. reflexivity.
Qed.

Lemma deliver_armed_writeFails w0 packet cmds dl t up error :
  deliver (WriteFails error) (armed w0 packet cmds dl t up true)
  = released w0 packet cmds t up false
      (Rejected (newDeviceError WRITE_ERROR)).
Proof.
  unfold armed, released, deliver, onWriteError,
    clearIfSet, clearTimeout, removeListener, withConnection.
  own_handle. reflexivity.
Qed.

Lemma deliver_armed_elapse w0 packet cmds dl t up fl ms :
  deliver (Elapse ms) (armed w0 packet cmds dl t up fl)
  = if dl <=? t + Z.max 0 ms
    then released w0 packet cmds (t + Z.max 0 ms) up fl
           (Rejected (newDeviceError WRITE_TIMEOUT))
    else armed w0 packet cmds dl (t + Z.max 0 ms) up fl.
Proof.
  unfold armed, released, deliver, onTimeout, timerDue, advance,
    clearTimeout, removeListener, withConnection.
  own_handle.
  destruct (dl <=? t + Z.max 0 ms); simpl.
  - own_handle. reflexivity.
  - reflexivity.
Qed.

Lemma deliver_armed_setConnected w0 packet cmds dl t up fl b :
  deliver (SetConnected b) (armed w0 packet cmds dl t up fl)
  = armed w0 packet cmds dl t b fl.
Proof. reflexivity. Qed.

(** Nothing but a failing write reaches a call whose closures are gone. *)
Lemma deliver_released w0 packet cmds t up fl p ev :
  deliver ev (released w0 packet cmds t up fl p)
  = match ev with
    | WriteFails _ =>
        if fl
        then released w0 packet cmds t up false
               (reject (newDeviceError WRITE_ERROR) p)
        else released w0 packet cmds t up fl p
    | Elapse ms => released w0 packet cmds (t + Z.max 0 ms) up fl p
    | SetConnected b => released w0 packet cmds t b fl p
    | _ => released w0 packet cmds t up fl p
    end.
Proof.
  destruct ev; reflexivity.
Qed.

Lemma run_app (xs ys : list Event) (s : State) :
  run (xs ++ ys) s = run ys (run xs s).
Proof. unfold run. apply fold_left_app. Qed.

Lemma run_cons (ev : Event) (events : list Event) (s : State) :
  run (ev :: events) s = run events (deliver ev s).
Proof. reflexivity. Qed.

(** During a quiet stretch the call stays as the executor left it. *)
Lemma run_quiet w0 packet cmds dl fl pre :
  forall t up,
    quiet (dl - t) pre = true ->
    exists t' up',
      run pre (armed w0 packet cmds dl t up fl)
      = armed w0 packet cmds dl t' up' fl
      /\ forall rest, quiet (dl - t) (pre ++ rest) = quiet (dl - t') rest.
Proof.
  induction pre as [|ev pre IH]; intros t up Hq.
  - exists t, up. split; [reflexivity | intros; reflexivity].
  - destruct ev as [ePacket | err | error | ms | b]; simpl in Hq;
      try discriminate.
    + apply andb_prop in Hq. destruct Hq as [Hlt Hq].
      replace (dl - t - Z.max 0 ms) with (dl - (t + Z.max 0 ms)) in Hq by lia.
      destruct (IH _ up Hq) as (t' & up' & Hrun & Hrest).
      exists t', up'. split.
      * rewrite run_cons, deliver_armed_elapse.
        assert (Hdue : (dl <=? t + Z.max 0 ms) = false)
          by (apply Z.leb_gt; apply Z.ltb_lt in Hlt; lia).
        rewrite Hdue. exact Hrun.
      * intros rest. simpl. rewrite Hlt. simpl.
        replace (dl - t - Z.max 0 ms) with (dl - (t + Z.max 0 ms)) by lia.
        apply Hrest.
    + destruct (IH t b Hq) as (t' & up' & Hrun & Hrest).
      exists t', up'. split.
      * rewrite run_cons, deliver_armed_setConnected. exact Hrun.
      * intros rest. simpl. apply Hrest.
Qed.

(** Once its closures are gone the call stays released; its promise can
    only change by a failing write, and not at all once it is settled. *)
Lemma run_released w0 packet cmds events :
  forall t up fl p,
  exists t' up' fl' p',
    run events (released w0 packet cmds t up fl p)
    = released w0 packet cmds t' up' fl' p'
    /\ (settled p = true -> p' = p)
    /\ (forallb (fun ev => negb (isWriteFails ev)) events = true ->
        p' = p /\ fl' = fl).
Proof.
  induction events as [|ev events IH]; intros t up fl p.
  - exists t, up, fl, p. repeat split; reflexivity.
  - rewrite run_cons, deliver_released.
    destruct ev as [ePacket | err | error | ms | b].
    + destruct (IH t up fl p) as (t' & up' & fl' & p' & Hrun & Hs & Hn).
      exists t', up', fl', p'. repeat split; auto; apply Hn; assumption.
    + destruct (IH t up fl p) as (t' & up' & fl' & p' & Hrun & Hs & Hn).
      exists t', up', fl', p'. repeat split; auto; apply Hn; assumption.
    + destruct fl.
      * destruct (IH t up false (reject (newDeviceError WRITE_ERROR) p))
          as (t' & up' & fl' & p' & Hrun & Hs & Hn).
        exists t', up', fl', p'. split; [exact Hrun|]. split.
        -- intros Hp. rewrite Hs; destruct p; try discriminate; reflexivity.
        -- simpl. discriminate.
      * destruct (IH t up false p) as (t' & up' & fl' & p' & Hrun & Hs & Hn).
        exists t', up', fl', p'. split; [exact Hrun|]. split; [exact Hs|].
        simpl. discriminate.
    + destruct (IH (t + Z.max 0 ms) up fl p)
        as (t' & up' & fl' & p' & Hrun & Hs & Hn).
      exists t', up', fl', p'. repeat split; auto; apply Hn; assumption.
    + destruct (IH t b fl p) as (t' & up' & fl' & p' & Hrun & Hs & Hn).
      exists t', up', fl', p'. repeat split; auto; apply Hn; assumption.
Qed.

(** Whatever happens, the call is either as the executor left it or
    released. *)
Lemma run_armed w0 packet cmds dl events :
  forall t up fl,
    (exists t' up' fl',
        run events (armed w0 packet cmds dl t up fl)
        = armed w0 packet cmds dl t' up' fl')
    \/ (exists t' up' fl' p',
        run events (armed w0 packet cmds dl t up fl)
        = released w0 packet cmds t' up' fl' p').
Proof.
  induction events as [|ev events IH]; intros t up fl.
  - left. exists t, up, fl. reflexivity.
  - rewrite run_cons. destruct ev as [ePacket | err | error | ms | b].
    + right. rewrite deliver_armed_ack.
      destruct (run_released w0 packet cmds events t up fl
                  (classify cmds ePacket))
        as (t' & up' & fl' & p' & Hrun & _). eauto.
    + right. rewrite deliver_armed_close.
      destruct (run_released w0 packet cmds events t up fl
                  (Rejected (newDeviceError CONNECTION_CLOSED)))
        as (t' & up' & fl' & p' & Hrun & _). eauto.
    + destruct fl.
      * right. rewrite deliver_armed_writeFails.
        destruct (run_released w0 packet cmds events t up false
                    (Rejected (newDeviceError WRITE_ERROR)))
          as (t' & up' & fl' & p' & Hrun & _). eauto.
      * apply IH.
    + rewrite deliver_armed_elapse.
      destruct (dl <=? t + Z.max 0 ms).
      * right.
        destruct (run_released w0 packet cmds events (t + Z.max 0 ms) up fl
                    (Rejected (newDeviceError WRITE_TIMEOUT)))
          as (t' & up' & fl' & p' & Hrun & _). eauto.
      * apply IH.
    + rewrite deliver_armed_setConnected. apply IH.
Qed.

(** On an idle, open connection the call is the event loop run from the
    state the executor leaves. *)
Lemma writePacket_connected cfg w packet version events :
  idle w = true -> isConnected w = true ->
  writePacket cfg w packet version events
  = let s := run events
               (armed w packet (commands_v1 cfg)
                  (now w + ACK_TIME (usableConstantsFor cfg version))
                  (now w) true true) in
    (record packet (Returns (promise (snd s))) (fst s),
     Returns (promise (snd s))).
Proof.
  intros Hidle Hup. unfold writePacket. rewrite Hup. simpl negb. cbv iota.
  rewrite (executor_idle _ (commands_v1 cfg) packet w Hidle). rewrite Hup.
  unfold usableConstantsFor.
  destruct (run events _) as [w' c']. reflexivity.
Qed.

Lemma writePacket_after_quiet cfg w packet version pre rest :
  idle w = true -> isConnected w = true ->
  quiet (ACK_TIME (usableConstantsFor cfg version)) pre = true ->
  exists t' up',
    writePacket cfg w packet version (pre ++ rest)
    = let s := run rest
                 (armed w packet (commands_v1 cfg)
                    (now w + ACK_TIME (usableConstantsFor cfg version))
                    t' up' true) in
      (record packet (Returns (promise (snd s))) (fst s),
       Returns (promise (snd s))).
Proof.
  intros Hidle Hup Hq.
  rewrite (writePacket_connected cfg w packet version _ Hidle Hup).
  set (dl := now w + ACK_TIME (usableConstantsFor cfg version)).
  assert (Hq' : quiet (dl - now w) pre = true)
    by (replace (dl - now w)
          with (ACK_TIME (usableConstantsFor cfg version))
          by (unfold dl; lia); exact Hq).
  destruct (run_quiet w packet (commands_v1 cfg) dl true pre _ true Hq')
    as (t' & up' & Hrun & _).
  exists t', up'. rewrite run_app, Hrun. reflexivity.
Qed.

(** A settled promise is never settled again. *)
Lemma deliver_settled_final (ev : Event) (w : World) (c : Call) :
  settled (promise c) = true ->
  promise (snd (deliver ev (w, c))) = promise c.
Proof.
  intros Hs. destruct c as [id cmds t p fl]. simpl in Hs.
  destruct ev as [ePacket | err | error | ms | b]; simpl.
  - destruct (hasListener _ _ _); [|reflexivity].
    destruct (commandType ePacket =? ACK_PACKET cmds);
      [destruct p; try discriminate; reflexivity|].
    destruct (commandType ePacket =? NACK_PACKET cmds);
      [destruct p; try discriminate; reflexivity | reflexivity].
  - destruct (hasListener _ _ _); [|reflexivity].
    destruct p; try discriminate; reflexivity.
  - destruct fl; [|reflexivity].
    destruct p; try discriminate; reflexivity.
  - destruct t as [h|]; [|reflexivity].
    destruct (timerDue h (advance ms w)); [|reflexivity].
    destruct p; try discriminate; reflexivity.
  - reflexivity.
Qed.

Lemma run_settled_final (events : list Event) :
  forall (w : World) (c : Call),
    settled (promise c) = true ->
    promise (snd (run events (w, c))) = promise c.
Proof.
  induction events as [|ev events IH]; intros w c Hs; [reflexivity|].
  rewrite run_cons.
  pose proof (deliver_settled_final ev w c Hs) as Hd.
  destruct (deliver ev (w, c)) as [w' c']. simpl in Hd.
  rewrite IH; [exact Hd | rewrite Hd; exact Hs].
Qed.

(** Settlement leaves nothing behind: when a call made on an idle
    connection has thrown or settled, the connection is idle again. *)
Lemma writePacket_settled_idle cfg w packet version events :
  idle w = true ->
  snd (writePacket cfg w packet version events) <> Returns Pending ->
  idle (fst (writePacket cfg w packet version events)) = true.
Proof.
  intros Hidle. destruct (isConnected w) eqn:Hup.
  - rewrite (writePacket_connected cfg w packet version events Hidle Hup).
    cbv zeta.
    destruct (run_armed w packet (commands_v1 cfg)
                (now w + ACK_TIME (usableConstantsFor cfg version))
                events (now w) true true)
      as [(t' & up' & fl' & Hrun) | (t' & up' & fl' & p' & Hrun)];
      rewrite Hrun; simpl; intros Hp; [congruence | reflexivity].
  - unfold writePacket. rewrite Hup. simpl. intros _. exact Hidle.
Qed.

(** With no acknowledgment, no close and no failing write before it, the
    expiry of the timer fails the call with [WRITE_TIMEOUT], whatever
    comes later. *)
Lemma writePacket_times_out cfg w packet version pre ms post :
  idle w = true -> isConnected w = true ->
  quiet (ACK_TIME (usableConstantsFor cfg version)) pre = true ->
  quiet (ACK_TIME (usableConstantsFor cfg version)) (pre ++ [Elapse ms])
  = false ->
  snd (writePacket cfg w packet version (pre ++ Elapse ms :: post))
  = Returns (Rejected (newDeviceError WRITE_TIMEOUT)).
Proof.
  intros Hidle Hup Hq Hnq.
  rewrite (writePacket_connected cfg w packet version _ Hidle Hup).
  set (dl := now w + ACK_TIME (usableConstantsFor cfg version)) in *.
  replace (ACK_TIME (usableConstantsFor cfg version)) with (dl - now w)
    in Hq, Hnq by (unfold dl; lia).
  destruct (run_quiet w packet (commands_v1 cfg) dl true pre _ true Hq)
    as (t' & up' & Hrun & Hrest).
  rewrite Hrest in Hnq. simpl in Hnq. rewrite andb_true_r in Hnq.
  cbv zeta. rewrite run_app, Hrun, run_cons, deliver_armed_elapse.
  assert (Hdue : (dl <=? t' + Z.max 0 ms) = true)
    by (apply Z.leb_le; apply Z.ltb_ge in Hnq; lia).
  rewrite Hdue.
  destruct (run_released w packet (commands_v1 cfg) post
              (t' + Z.max 0 ms) up' true
              (Rejected (newDeviceError WRITE_TIMEOUT)))
    as (t'' & up'' & fl'' & p'' & Hrun' & Hs & _).
  rewrite Hrun'. simpl. rewrite Hs; reflexivity.
Qed.

(** As long as every acknowledgment carries the ACK or the NACK code, a
    call that lives to see its deadline settles. *)
Lemma run_armed_settles w0 packet cmds dl events :
  forall t up fl,
    forallb (knownAck cmds) events = true ->
    expires (dl - t) events = true ->
    exists t' up' fl' p',
      run events (armed w0 packet cmds dl t up fl)
      = released w0 packet cmds t' up' fl' p'
      /\ settled p' = true.
Proof.
  assert (Hrel : forall rest t up fl p,
             settled p = true ->
             exists t' up' fl' p',
               run rest (released w0 packet cmds t up fl p)
               = released w0 packet cmds t' up' fl' p'
               /\ settled p' = true).
  { intros rest t up fl p Hp.
    destruct (run_released w0 packet cmds rest t up fl p)
      as (t' & up' & fl' & p' & Hrun & Hs & _).
    exists t', up', fl', p'. split; [exact Hrun|].
    rewrite (Hs Hp). exact Hp. }
  induction events as [|ev events IH]; intros t up fl Hknown Hexp;
    [discriminate|].
  cbn [forallb] in Hknown. apply andb_prop in Hknown.
  destruct Hknown as [Hev Hknown].
  rewrite run_cons.
  destruct ev as [ePacket | err | error | ms | b].
  - rewrite deliver_armed_ack. apply Hrel.
    unfold classify. simpl in Hev.
    destruct (commandType ePacket =? ACK_PACKET cmds); [reflexivity|].
    destruct (commandType ePacket =? NACK_PACKET cmds);
      [reflexivity | discriminate].
  - rewrite deliver_armed_close. apply Hrel. reflexivity.
  - destruct fl.
    + rewrite deliver_armed_writeFails. apply Hrel. reflexivity.
    + apply IH; assumption.
  - rewrite deliver_armed_elapse.
    destruct (dl <=? t + Z.max 0 ms) eqn:Hdue.
    + apply Hrel. reflexivity.
    + apply IH; [exact Hknown|].
      simpl in Hexp. apply Z.leb_gt in Hdue.
      assert (Hnot : (dl - t <=? Z.max 0 ms) = false)
        by (apply Z.leb_gt; lia).
      rewrite Hnot in Hexp. simpl in Hexp.
      replace (dl - (t + Z.max 0 ms)) with (dl - t - Z.max 0 ms) by lia.
      exact Hexp.
  - rewrite deliver_armed_setConnected. apply IH; assumption.
Qed.

(** Without acknowledgments of unknown code, a call on an idle, open
    connection has an outcome by the time its deadline has passed, and
    leaves no listener and no timer. *)
Lemma writePacket_settles cfg w packet version events :
  idle w = true -> isConnected w = true ->
  forallb (knownAck (commands_v1 cfg)) events = true ->
  expires (ACK_TIME (usableConstantsFor cfg version)) events = true ->
  exists p,
    snd (writePacket cfg w packet version events) = Returns p
    /\ settled p = true
    /\ idle (fst (writePacket cfg w packet version events)) = true.
Proof.
  intros Hidle Hup Hknown Hexp.
  rewrite (writePacket_connected cfg w packet version events Hidle Hup).
  cbv zeta.
  destruct (run_armed_settles w packet (commands_v1 cfg)
              (now w + ACK_TIME (usableConstantsFor cfg version))
              events (now w) true true Hknown)
    as (t' & up' & fl' & p' & Hrun & Hp).
  { replace (now w + ACK_TIME (usableConstantsFor cfg version) - now w)
      with (ACK_TIME (usableConstantsFor cfg version)) by lia.
    exact Hexp. }
  rewrite Hrun. exists p'. simpl. auto.
Qed.

(** ** Packet transport: the claims *)

(** C9.  On a connection that reports itself not connected, [writePacket]
    throws [CONNECTION_CLOSED] at once: nothing is written, no listener is
    registered and no timer is scheduled. *)
Theorem writePacket_not_connected cfg w packet version events :
  isConnected w = false ->
  snd (writePacket cfg w packet version events)
  = Throws (newDeviceError CONNECTION_CLOSED)
  /\ errorType (newDeviceError CONNECTION_CLOSED) = CONNECTION_CLOSED
  /\ written (connection (fst (writePacket cfg w packet version events)))
     = written (connection w)
  /\ listeners (connection (fst (writePacket cfg w packet version events)))
     = listeners (connection w)
  /\ timers (fst (writePacket cfg w packet version events)) = timers w.
Proof.
  intros Hdown. unfold writePacket. rewrite Hdown.
  repeat split; reflexivity.
Qed.

Lemma writePacket_not_connected_witness :
  snd (writePacket sampleConfig (freshWorld false) "aa" v1
         [EmitAck (mkPacketData 1); Elapse 2000])
  = Throws (newDeviceError CONNECTION_CLOSED)
  /\ errorType (newDeviceError CONNECTION_CLOSED) = CONNECTION_CLOSED
  /\ written (connection (fst (writePacket sampleConfig (freshWorld false)
                                 "aa" v1
                                 [EmitAck (mkPacketData 1); Elapse 2000])))
     = written (connection (freshWorld false))
  /\ listeners (connection (fst (writePacket sampleConfig (freshWorld false)
                                   "aa" v1
                                   [EmitAck (mkPacketData 1); Elapse 2000])))
     = listeners (connection (freshWorld false))
  /\ timers (fst (writePacket sampleConfig (freshWorld false) "aa" v1
                    [EmitAck (mkPacketData 1); Elapse 2000]))
     = timers (freshWorld false).
Proof.
  apply (writePacket_not_connected sampleConfig (freshWorld false) "aa" v1
           [EmitAck (mkPacketData 1); Elapse 2000]).
  reflexivity.
Defined.

(** C8.  The kind of a failure follows the event that settles the call: a
    NACK fails it with [WRITE_ERROR], a close notification with
    [CONNECTION_CLOSED] whether or not it carries an error, and a failing
    write with [WRITE_ERROR], after which no listener and no timer is
    left; later events change nothing. *)
Theorem writePacket_failure_kinds cfg w packet version pre post :
  idle w = true -> isConnected w = true ->
  ACK_PACKET (commands_v1 cfg) <> NACK_PACKET (commands_v1 cfg) ->
  quiet (ACK_TIME (usableConstantsFor cfg version)) pre = true ->
  snd (writePacket cfg w packet version
         (pre ++ EmitAck (mkPacketData (NACK_PACKET (commands_v1 cfg)))
              :: post))
  = Returns (Rejected (newDeviceError WRITE_ERROR))
  /\ (forall err,
        snd (writePacket cfg w packet version (pre ++ EmitClose err :: post))
        = Returns (Rejected (newDeviceError CONNECTION_CLOSED)))
  /\ (forall error,
        snd (writePacket cfg w packet version
               (pre ++ WriteFails error :: post))
        = Returns (Rejected (newDeviceError WRITE_ERROR))
        /\ idle (fst (writePacket cfg w packet version
                        (pre ++ WriteFails error :: post))) = true
        /\ idle (fst (writePacket cfg w packet version
                        (pre ++ [WriteFails error]))) = true).
Proof.
  intros Hidle Hup Hcodes Hq.
  assert (Hstep : forall ev p,
             settled p = true ->
             (forall t up,
                 deliver ev (armed w packet (commands_v1 cfg)
                               (now w
                                + ACK_TIME (usableConstantsFor cfg version))
                               t up true)
                 = released w packet (commands_v1 cfg) t up
                     (negb (isWriteFails ev)) p) ->
             forall rest,
               snd (writePacket cfg w packet version (pre ++ ev :: rest))
               = Returns p
               /\ idle (fst (writePacket cfg w packet version
                               (pre ++ ev :: rest))) = true).
  { intros ev p Hp Hdel rest.
    destruct (writePacket_after_quiet cfg w packet version pre (ev :: rest)
                Hidle Hup Hq) as (t' & up' & Hw).
    rewrite Hw. cbv zeta. rewrite run_cons, Hdel.
    destruct (run_released w packet (commands_v1 cfg) rest t' up'
                (negb (isWriteFails ev)) p)
      as (t'' & up'' & fl'' & p'' & Hrun & Hs & _).
    rewrite Hrun. simpl. rewrite (Hs Hp). split; reflexivity. }
  split; [|split].
  - apply Hstep; [reflexivity|]. intros t up.
    rewrite deliver_armed_ack. unfold classify. simpl.
    destruct (NACK_PACKET (commands_v1 cfg) =? ACK_PACKET (commands_v1 cfg))
      eqn:Heq; [apply Z.eqb_eq in Heq; congruence|].
    rewrite Z.eqb_refl. reflexivity.
  - intros err. apply Hstep; [reflexivity|]. intros t up.
    apply deliver_armed_close.
  - intros error.
    assert (Hdel : forall t up,
               deliver (WriteFails error)
                 (armed w packet (commands_v1 cfg)
                    (now w + ACK_TIME (usableConstantsFor cfg version))
                    t up true)
               = released w packet (commands_v1 cfg) t up
                   (negb (isWriteFails (WriteFails error)))
                   (Rejected (newDeviceError WRITE_ERROR)))
      by (intros; apply deliver_armed_writeFails).
    split; [|split];
      apply (Hstep (WriteFails error)
               (Rejected (newDeviceError WRITE_ERROR)) eq_refl Hdel).
Qed.

Lemma writePacket_failure_kinds_witness :
  snd (writePacket sampleConfig (freshWorld true) "aa" v2
         ([Elapse 100; SetConnected false]
            ++ EmitAck (mkPacketData (NACK_PACKET (commands_v1 sampleConfig)))
            :: [EmitAck (mkPacketData 1)]))
  = Returns (Rejected (newDeviceError WRITE_ERROR))
  /\ (forall err,
        snd (writePacket sampleConfig (freshWorld true) "aa" v2
               ([Elapse 100; SetConnected false]
                  ++ EmitClose err :: [EmitAck (mkPacketData 1)]))
        = Returns (Rejected (newDeviceError CONNECTION_CLOSED)))
  /\ (forall error,
        snd (writePacket sampleConfig (freshWorld true) "aa" v2
               ([Elapse 100; SetConnected false]
                  ++ WriteFails error :: [EmitAck (mkPacketData 1)]))
        = Returns (Rejected (newDeviceError WRITE_ERROR))
        /\ idle (fst (writePacket sampleConfig (freshWorld true) "aa" v2
                        ([Elapse 100; SetConnected false]
                           ++ WriteFails error
                           :: [EmitAck (mkPacketData 1)]))) = true
        /\ idle (fst (writePacket sampleConfig (freshWorld true) "aa" v2
                        ([Elapse 100; SetConnected false]
                           ++ [WriteFails error]))) = true).
Proof.
  apply (writePacket_failure_kinds sampleConfig (freshWorld true) "aa" v2
           [Elapse 100; SetConnected false] [EmitAck (mkPacketData 1)]).
  - reflexivity.
  - reflexivity.
  - simpl. lia.
  - reflexivity.
Defined.

Lemma classify_unknown cmds ePacket :
  commandType ePacket <> ACK_PACKET cmds ->
  commandType ePacket <> NACK_PACKET cmds ->
  classify cmds ePacket = Pending.
Proof.
  intros Hack Hnack. unfold classify.
  destruct (commandType ePacket =? ACK_PACKET cmds) eqn:E1;
    [apply Z.eqb_eq in E1; contradiction|].
  destruct (commandType ePacket =? NACK_PACKET cmds) eqn:E2;
    [apply Z.eqb_eq in E2; contradiction|].
  reflexivity.
Qed.

(** C1.  What the code does with an acknowledgment whose command code is
    neither ACK nor NACK: [dataListener] clears the timer and removes both
    listeners before it looks at the code, so the promise is left pending
    and no later notification or lapse of time settles it; the timer never
    fails the call with [WRITE_TIMEOUT]. *)
Theorem writePacket_unknown_ack_hangs cfg w packet version pre ePacket post :
  idle w = true -> isConnected w = true ->
  quiet (ACK_TIME (usableConstantsFor cfg version)) pre = true ->
  commandType ePacket <> ACK_PACKET (commands_v1 cfg) ->
  commandType ePacket <> NACK_PACKET (commands_v1 cfg) ->
  forallb (fun ev => negb (isWriteFails ev)) post = true ->
  snd (writePacket cfg w packet version (pre ++ EmitAck ePacket :: post))
  = Returns Pending.
Proof.
  intros Hidle Hup Hq Hack Hnack Hpost.
  destruct (writePacket_after_quiet cfg w packet version pre
              (EmitAck ePacket :: post) Hidle Hup Hq) as (t' & up' & Hw).
  rewrite Hw. cbv zeta.
  rewrite run_cons, deliver_armed_ack, (classify_unknown _ _ Hack Hnack).
  destruct (run_released w packet (commands_v1 cfg) post t' up' true Pending)
    as (t'' & up'' & fl'' & p'' & Hrun & _ & Hn).
  rewrite Hrun. simpl. destruct (Hn Hpost) as [Hp _]. rewrite Hp.
  reflexivity.
Qed.

Lemma writePacket_unknown_ack_hangs_witness :
  snd (writePacket sampleConfig (freshWorld true) "aa" v1
         ([Elapse 10] ++ EmitAck (mkPacketData 99)
            :: [Elapse 2000; EmitAck (mkPacketData 1); EmitClose None;
                Elapse 100000]))
  = Returns Pending.
Proof.
  apply (writePacket_unknown_ack_hangs sampleConfig (freshWorld true) "aa" v1
           [Elapse 10] (mkPacketData 99)
           [Elapse 2000; EmitAck (mkPacketData 1); EmitClose None;
            Elapse 100000]).
  - reflexivity.
  - reflexivity.
  - reflexivity.
  - simpl. lia.
  - simpl. lia.
  - reflexivity.
Defined.

(** C2.  What the code does when the first event of a call is an
    acknowledgment with an unknown command code: the listeners and the
    timer are released although the call has no outcome, however much time
    passes afterwards, and a write that fails later still settles it. *)
Theorem writePacket_unknown_ack_no_outcome cfg w packet version ePacket ms
    error :
  idle w = true -> isConnected w = true ->
  commandType ePacket <> ACK_PACKET (commands_v1 cfg) ->
  commandType ePacket <> NACK_PACKET (commands_v1 cfg) ->
  snd (writePacket cfg w packet version [EmitAck ePacket; Elapse ms])
  = Returns Pending
  /\ idle (fst (writePacket cfg w packet version
                  [EmitAck ePacket; Elapse ms])) = true
  /\ snd (writePacket cfg w packet version
            [EmitAck ePacket; Elapse ms; WriteFails error])
     = Returns (Rejected (newDeviceError WRITE_ERROR)).
Proof.
  intros Hidle Hup Hack Hnack.
  rewrite !(writePacket_connected cfg w packet version _ Hidle Hup).
  cbv zeta.
  rewrite !run_cons, !deliver_armed_ack, !(classify_unknown _ _ Hack Hnack).
  rewrite !deliver_released. simpl. repeat split; reflexivity.
Qed.

Lemma writePacket_unknown_ack_no_outcome_witness :
  snd (writePacket sampleConfig (freshWorld true) "aa" v1
         [EmitAck (mkPacketData 99); Elapse 2000])
  = Returns Pending
  /\ idle (fst (writePacket sampleConfig (freshWorld true) "aa" v1
                  [EmitAck (mkPacketData 99); Elapse 2000])) = true
  /\ snd (writePacket sampleConfig (freshWorld true) "aa" v1
            [EmitAck (mkPacketData 99); Elapse 2000; WriteFails "EIO"])
     = Returns (Rejected (newDeviceError WRITE_ERROR)).
Proof.
  apply (writePacket_unknown_ack_no_outcome sampleConfig (freshWorld true)
           "aa" v1 (mkPacketData 99) 2000 "EIO").
  - reflexivity.
  - reflexivity.
  - simpl. lia.
  - simpl. lia.
Defined.

(** ** Command sender: the record of invocations *)

Lemma deliver_frame (ev : Event) (s : State) :
  invocations (fst (deliver ev s)) = invocations (fst s)
  /\ written (connection (fst (deliver ev s)))
     = written (connection (fst s)).
Proof.
  destruct s as [w c]. destruct c as [id cmds t p fl].
  destruct ev as [ePacket | err | error | ms | b]; simpl.
  - destruct (hasListener _ _ _); [|split; reflexivity].
    destruct (commandType ePacket =? ACK_PACKET cmds);
      [destruct t; split; reflexivity|].
    destruct (commandType ePacket =? NACK_PACKET cmds);
      destruct t; split; reflexivity.
  - destruct (hasListener _ _ _); [|split; reflexivity].
    destruct t; split; reflexivity.
  - destruct fl; [|split; reflexivity].
    destruct t; split; reflexivity.
  - destruct t as [h|]; [|split; reflexivity].
    destruct (timerDue h (advance ms w)); split; reflexivity.
  - split; reflexivity.
Qed.

Lemma run_frame (events : list Event) :
  forall s,
    invocations (fst (run events s)) = invocations (fst s)
    /\ written (connection (fst (run events s)))
       = written (connection (fst s)).
Proof.
  induction events as [|ev events IH]; intros s; [split; reflexivity|].
  rewrite run_cons. destruct (IH (deliver ev s)) as [Hi Hw].
  destruct (deliver_frame ev s) as [Hi' Hw'].
  split; congruence.
Qed.

(** Every call appends itself and its result to the record. *)
Lemma writePacket_invocations cfg w packet version events :
  invocations (fst (writePacket cfg w packet version events))
  = invocations w ++ [(packet, snd (writePacket cfg w packet version events))].
Proof.
  unfold writePacket. destruct (isConnected w); simpl; [|reflexivity].
  match goal with |- context [run events ?s] =>
    pose proof (run_frame events s) as [Hi _];
    destruct (run events s) as [w' c'] end.
  simpl in *. rewrite Hi. reflexivity.
Qed.

(** A call writes its packet exactly when it returns a promise. *)
Lemma writePacket_written cfg w packet version events :
  written (connection (fst (writePacket cfg w packet version events)))
  = written (connection w)
    ++ map fst
         (filter wrote
            [(packet, snd (writePacket cfg w packet version events))]).
Proof.
  unfold writePacket. destruct (isConnected w); simpl;
    [|symmetry; apply app_nil_r].
  match goal with |- context [run events ?s] =>
    pose proof (run_frame events s) as [_ Hw];
    destruct (run events s) as [w' c'] end.
  simpl in *. rewrite Hw. reflexivity.
Qed.

Lemma deliver_knownPromise (ev : Event) (w : World) (c : Call) :
  knownPromise (promise c) ->
  knownPromise (promise (snd (deliver ev (w, c)))).
Proof.
  intros Hk. destruct c as [id cmds t p fl]. simpl in Hk.
  unfold transportError.
  destruct ev as [ePacket | err | error | ms | b]; simpl.
  - destruct (hasListener _ _ _); [|exact Hk].
    destruct (commandType ePacket =? ACK_PACKET cmds);
      [destruct p; simpl; auto|].
    destruct (commandType ePacket =? NACK_PACKET cmds);
      [destruct p; simpl; unfold transportError; auto | exact Hk].
  - destruct (hasListener _ _ _); [|exact Hk].
    destruct p; simpl; unfold transportError; auto.
  - destruct fl; [|exact Hk].
    destruct p; simpl; unfold transportError; auto.
  - destruct t as [h|]; [|exact Hk].
    destruct (timerDue h (advance ms w)); [|exact Hk].
    destruct p; simpl; unfold transportError; auto.
  - exact Hk.
Qed.

Lemma run_knownPromise (events : list Event) :
  forall (w : World) (c : Call),
    knownPromise (promise c) ->
    knownPromise (promise (snd (run events (w, c)))).
Proof.
  induction events as [|ev events IH]; intros w c Hk; [exact Hk|].
  rewrite run_cons.
  pose proof (deliver_knownPromise ev w c Hk) as Hd.
  destruct (deliver ev (w, c)) as [w' c']. apply IH. exact Hd.
Qed.

(** A call throws [CONNECTION_CLOSED] or returns a promise that, if it is
    rejected, is rejected with one of the three transport errors. *)
Lemma writePacket_knownCompletion cfg w packet version events :
  knownCompletion (snd (writePacket cfg w packet version events)).
Proof.
  unfold writePacket. destruct (isConnected w); simpl; [|reflexivity].
  match goal with |- context [run events (?w0, ?c0)] =>
    pose proof (run_knownPromise events w0 c0 I) as Hk;
    destruct (run events (w0, c0)) as [w' c'] end.
  exact Hk.
Qed.

Lemma finalError_truthy (fe : option Thrown) : truthy (finalError fe) = true.
Proof.
  destruct fe as [x|]; simpl; [|reflexivity].
  destruct (truthy x) eqn:E; [exact E | reflexivity].
Qed.

(** A closure of a packet never rejects with a falsy value. *)
Lemma PacketRun_rejected_truthy d M tries fe L r :
  PacketRun d M tries fe L r ->
  forall x, r = Rejected x -> truthy x = true.
Proof.
  induction 1; intros x Hx; try discriminate.
  - inversion Hx; subst. apply finalError_truthy.
  - auto.
Qed.

Section SenderFacts.

Variable cfg : Config.
Variable xmodemEncode : string -> Z -> PacketVersion -> list Packet.
Variable env : nat -> list Event.

(** With enough fuel the loop of a packet's closure ends, and its calls
    make up a run of that packet. *)
Lemma retry_PacketRun (d : Packet) (version : PacketVersion) (M : Z) :
  forall (fuel : nat) (tries : Z) (fe : option Thrown) (w : World),
    (Z.to_nat (M + 1 - tries) < fuel)%nat ->
    exists w' r L,
      retry cfg env fuel d version M tries fe w = Some (w', r)
      /\ invocations w' = invocations w ++ L
      /\ PacketRun d M tries fe L r
      /\ written (connection w')
         = written (connection w) ++ map fst (filter wrote L)
      /\ Forall (fun a => knownCompletion (snd a)) L.
Proof.
  induction fuel as [|fuel IH]; intros tries fe w Hfuel; [lia|].
  simpl. destruct (tries <=? M) eqn:Hle.
  - apply Z.leb_le in Hle.
    pose proof (writePacket_invocations cfg w d version
                  (env (List.length (invocations w)))) as Hinv.
    pose proof (writePacket_written cfg w d version
                  (env (List.length (invocations w)))) as Hwr.
    pose proof (writePacket_knownCompletion cfg w d version
                  (env (List.length (invocations w)))) as Hkn.
    destruct (writePacket cfg w d version
                (env (List.length (invocations w)))) as [w1 c].
    cbn [fst snd] in Hinv, Hwr, Hkn.
    assert (Hfail : forall e,
               failureOf c = Some e ->
               await c = Rejected (ThrownDeviceError e) ->
               exists w' r L,
                 retry cfg env fuel d version M
                   ((if includes connectionFatal (errorType e)
                     then M else tries) + 1)
                   (noteError fe (ThrownDeviceError e)) w1 = Some (w', r)
                 /\ invocations w' = invocations w ++ L
                 /\ PacketRun d M tries fe L r
                 /\ written (connection w')
                    = written (connection w) ++ map fst (filter wrote L)
                 /\ Forall (fun a => knownCompletion (snd a)) L).
    { intros e Hf Ha.
      destruct (IH ((if includes connectionFatal (errorType e)
                     then M else tries) + 1)
                  (noteError fe (ThrownDeviceError e)) w1)
        as (w' & r & L & Hr & Hi & Hp & Hw & Hk).
      { destruct (includes connectionFatal (errorType e)); lia. }
      exists w', r, ((d, c) :: L).
      split; [exact Hr|]. split; [|split; [|split]].
      - rewrite Hi, Hinv, <- app_assoc. reflexivity.
      - eapply pr_failed; eassumption.
      - change ((d, c) :: L) with ([(d, c)] ++ L).
        rewrite filter_app, map_app, app_assoc, Hw, Hwr. reflexivity.
      - constructor; assumption. }
    destruct c as [e | [ | e | ]]; simpl await; cbv iota.
    + apply Hfail; reflexivity.
    + exists w1, Fulfilled, [(d, Returns Fulfilled)].
      repeat split; auto. apply pr_acked; exact Hle.
    + apply Hfail; reflexivity.
    + exists w1, Pending, [(d, Returns Pending)].
      repeat split; auto. apply pr_hung; exact Hle.
  - apply Z.leb_gt in Hle.
    exists w, (Rejected (finalError fe)), [].
    split; [|split; [|split; [|split]]].
    + destruct fe as [x|]; simpl; [destruct (truthy x)|]; reflexivity.
    + symmetry; apply app_nil_r.
    + apply pr_exhausted; exact Hle.
    + symmetry; apply app_nil_r.
    + constructor.
Qed.

(** The closure of a packet always comes to an end. *)
Lemma dataListEntry_PacketRun command version maxTries d w :
  exists L,
    invocations (fst (dataListEntry cfg env command version maxTries d w))
    = invocations w ++ L
    /\ PacketRun d (effectiveTries command maxTries) 1 None L
         (snd (dataListEntry cfg env command version maxTries d w))
    /\ written (connection
                  (fst (dataListEntry cfg env command version maxTries d w)))
       = written (connection w) ++ map fst (filter wrote L)
    /\ Forall (fun a => knownCompletion (snd a)) L.
Proof.
  unfold dataListEntry. fold (effectiveTries command maxTries).
  destruct (retry_PacketRun d version (effectiveTries command maxTries)
              (S (Z.to_nat (effectiveTries command maxTries))) 1 None w)
    as (w' & r & L & Hr & Hi & Hp & Hw & Hk).
  { replace (effectiveTries command maxTries + 1 - 1)
      with (effectiveTries command maxTries) by lia. lia. }
  rewrite Hr. exists L. simpl. auto.
Qed.

Lemma forOf_Transcript command version maxTries (ps : list Packet) :
  forall w,
  exists L,
    invocations
      (fst (forOf (map (dataListEntry cfg env command version maxTries) ps)
              w))
    = invocations w ++ L
    /\ Transcript (effectiveTries command maxTries) ps L
         (snd (forOf (map (dataListEntry cfg env command version maxTries)
                        ps) w))
    /\ written
         (connection
            (fst (forOf (map (dataListEntry cfg env command version maxTries)
                           ps) w)))
       = written (connection w) ++ map fst (filter wrote L)
    /\ Forall (fun a => knownCompletion (snd a)) L.
Proof.
  induction ps as [|d ps IH]; intros w.
  - exists []. simpl. rewrite !app_nil_r.
    repeat split; [apply tr_done | constructor].
  - simpl.
    destruct (dataListEntry_PacketRun command version maxTries d w)
      as (L1 & Hi & Hp & Hw & Hk).
    destruct (dataListEntry cfg env command version maxTries d w)
      as [w1 r1]. simpl in Hi, Hp, Hw.
    destruct r1 as [ | x | ].
    + destruct (IH w1) as (L2 & Hi2 & Hp2 & Hw2 & Hk2).
      exists (L1 ++ L2). split; [|split; [|split]].
      * rewrite Hi2, Hi, app_assoc. reflexivity.
      * apply tr_next; assumption.
      * rewrite Hw2, Hw, filter_app, map_app, app_assoc. reflexivity.
      * apply Forall_app; split; assumption.
    + assert (Hx : truthy x = true)
        by (eapply PacketRun_rejected_truthy; [exact Hp | reflexivity]).
      rewrite Hx. exists L1. simpl. repeat split; auto.
      apply tr_abort; assumption.
    + exists L1. simpl. repeat split; auto. apply tr_hang; assumption.
Qed.

(** The record of a send is a transcript of the encoder's packets. *)
Lemma sendData_Transcript w command data version maxTries :
  exists L,
    invocations
      (fst (sendData cfg xmodemEncode env w command data version maxTries))
    = invocations w ++ L
    /\ Transcript
         (effectiveTries command
            (match maxTries with Some m => m | None => 5 end))
         (xmodemEncode data command version) L
         (snd (sendData cfg xmodemEncode env w command data version maxTries))
    /\ written
         (connection
            (fst (sendData cfg xmodemEncode env w command data version
                    maxTries)))
       = written (connection w) ++ map fst (filter wrote L)
    /\ Forall (fun a => knownCompletion (snd a)) L.
Proof. unfold sendData. apply forOf_Transcript. Qed.

End SenderFacts.

(** ** Command sender: what a run and a transcript look like *)

Lemma PacketRun_done d M tries fe L r :
  PacketRun d M tries fe L r ->
  M < tries ->
  L = [] /\ r = Rejected (finalError fe).
Proof. destruct 1; intros Hgt; try lia. split; reflexivity. Qed.

Lemma PacketRun_packets d M tries fe L r :
  PacketRun d M tries fe L r -> Forall (fun a => fst a = d) L.
Proof. induction 1; repeat constructor; assumption. Qed.

Lemma PacketRun_length d M tries fe L r :
  PacketRun d M tries fe L r ->
  (List.length L <= Z.to_nat (M + 1 - tries))%nat.
Proof.
  induction 1; simpl; try lia.
  destruct (includes connectionFatal (errorType e)); lia.
Qed.

(** A run is a row of failed calls, closed by an acknowledged or a pending
    call unless the closure rejects. *)
Lemma PacketRun_shape d M tries fe L r :
  PacketRun d M tries fe L r ->
  match r with
  | Fulfilled =>
      exists F, L = F ++ [(d, Returns Fulfilled)]
                /\ forallb isFailure F = true
  | Pending =>
      exists F, L = F ++ [(d, Returns Pending)]
                /\ forallb isFailure F = true
  | Rejected _ => forallb isFailure L = true
  end.
Proof.
  induction 1.
  - reflexivity.
  - exists []. split; reflexivity.
  - exists []. split; reflexivity.
  - assert (Hc : isFailure (d, c) = true)
      by (unfold isFailure; simpl; rewrite H0; reflexivity).
    destruct r as [ | x | ].
    + destruct IHPacketRun as (F & -> & HF).
      exists ((d, c) :: F). split; [reflexivity|].
      simpl. rewrite Hc, HF. reflexivity.
    + simpl. rewrite Hc, IHPacketRun. reflexivity.
    + destruct IHPacketRun as (F & -> & HF).
      exists ((d, c) :: F). split; [reflexivity|].
      simpl. rewrite Hc, HF. reflexivity.
Qed.

Lemma isFailure_not_acked a : isFailure a = true -> isAcked a = false.
Proof.
  destruct a as [p [e | [ | e | ]]]; unfold isFailure, isAcked; simpl;
    congruence.
Qed.

Lemma isFailure_settled a : isFailure a = true -> isSettled a = true.
Proof.
  destruct a as [p [e | [ | e | ]]]; unfold isFailure, isSettled; simpl;
    congruence.
Qed.

Lemma acked_app L1 L2 : acked (L1 ++ L2) = (acked L1 + acked L2)%nat.
Proof. unfold acked. rewrite filter_app, length_app. reflexivity. Qed.

Lemma acked_failures F : forallb isFailure F = true -> acked F = 0%nat.
Proof.
  induction F as [|a F IH]; intros HF; [reflexivity|].
  simpl in HF. apply andb_prop in HF. destruct HF as [Ha HF].
  unfold acked in *. simpl. rewrite (isFailure_not_acked a Ha). auto.
Qed.

Lemma forallb_firstn {A} (P : A -> bool) (l : list A) (k : nat) :
  forallb P l = true -> forallb P (firstn k l) = true.
Proof.
  revert k. induction l as [|a l IH]; intros [|k] H; try reflexivity.
  simpl in *. apply andb_prop in H. destruct H as [Ha Hl].
  rewrite Ha. simpl. auto.
Qed.

(** No call of a run before its last one is acknowledged. *)
Lemma PacketRun_acked_before d M tries fe L r :
  PacketRun d M tries fe L r ->
  forall k, (k < List.length L)%nat -> acked (firstn k L) = 0%nat.
Proof.
  intros Hrun k Hk. apply PacketRun_shape in Hrun.
  assert (Hpre : forall F (a : Packet * Completion),
             forallb isFailure F = true ->
             (k < List.length (F ++ [a]))%nat ->
             acked (firstn k (F ++ [a])) = 0%nat).
  { intros F a HF Hlen. rewrite length_app in Hlen. simpl in Hlen.
    rewrite firstn_app.
    replace (k - List.length F)%nat with 0%nat by lia.
    simpl. rewrite app_nil_r.
    apply acked_failures, forallb_firstn, HF. }
  destruct r as [ | x | ].
  - destruct Hrun as (F & -> & HF). apply Hpre; assumption.
  - apply acked_failures, forallb_firstn, Hrun.
  - destruct Hrun as (F & -> & HF). apply Hpre; assumption.
Qed.

Lemma PacketRun_acked d M tries fe L r :
  PacketRun d M tries fe L r ->
  acked L = match r with Fulfilled => 1%nat | _ => 0%nat end.
Proof.
  intros Hrun. apply PacketRun_shape in Hrun.
  destruct r as [ | x | ].
  - destruct Hrun as (F & -> & HF).
    rewrite acked_app, (acked_failures F HF). reflexivity.
  - apply acked_failures, Hrun.
  - destruct Hrun as (F & -> & HF).
    rewrite acked_app, (acked_failures F HF). reflexivity.
Qed.

(** Only the last call of a run can fail with a connection-fatal kind. *)
Lemma PacketRun_fatal_last d M tries fe L r :
  PacketRun d M tries fe L r ->
  forallb (fun a => negb (isFatal (snd a))) (removelast L) = true.
Proof.
  induction 1; try reflexivity.
  destruct L as [|b L]; [reflexivity|].
  change (removelast ((d, c) :: b :: L))
    with ((d, c) :: removelast (b :: L)).
  assert (Hc : isFatal c = includes connectionFatal (errorType e))
    by (unfold isFatal; rewrite H0; reflexivity).
  cbn [forallb snd]. rewrite IHPacketRun, andb_true_r, Hc.
  destruct (includes connectionFatal (errorType e)); [|reflexivity].
  apply PacketRun_done in H1; [|lia]. destruct H1 as [HL _]. discriminate.
Qed.

Lemma failuresSinceAck_failures L :
  forallb isFailure L = true ->
  forall acc, failuresSinceAck acc L = acc ++ failuresSinceAck [] L.
Proof.
  induction L as [|a L IH]; intros HL acc.
  - simpl. rewrite app_nil_r. reflexivity.
  - simpl in HL. apply andb_prop in HL. destruct HL as [Ha HL].
    unfold isFailure in Ha. simpl.
    destruct (failureOf (snd a)) as [e'|]; [|discriminate].
    rewrite (IH HL (acc ++ [e'])), (IH HL [e']), <- app_assoc.
    reflexivity.
Qed.

(** The closure rejects with the first error it caught, and with a fresh
    [WRITE_TIMEOUT] when it caught none. *)
Lemma PacketRun_first_error d M tries fe L r :
  PacketRun d M tries fe L r ->
  forall x, r = Rejected x ->
  x = finalError
        (match failuresSinceAck [] L with
         | e :: _ => noteError fe (ThrownDeviceError e)
         | [] => fe
         end).
Proof.
  induction 1; intros x Hx; try discriminate.
  - inversion Hx. reflexivity.
  - rewrite (IHPacketRun x Hx).
    assert (HL : forallb isFailure L = true)
      by (apply PacketRun_shape in H1; rewrite Hx in H1; exact H1).
    simpl. rewrite H0.
    rewrite (failuresSinceAck_failures L HL [e]). simpl.
    destruct (failuresSinceAck [] L); destruct fe as [y|];
      unfold noteError, finalError; simpl;
      try (destruct (truthy y) eqn:Ey; simpl; rewrite ?Ey; simpl);
      reflexivity.
Qed.

Lemma Forall_nth_error {A} (P : A -> Prop) (l : list A) (k : nat) (a : A) :
  Forall P l -> nth_error l k = Some a -> P a.
Proof.
  intros HF Hk. apply nth_error_In in Hk.
  rewrite Forall_forall in HF. auto.
Qed.

Lemma forallb_removelast {A} (P : A -> bool) (l : list A) :
  forallb P l = true -> forallb P (removelast l) = true.
Proof.
  induction l as [|a l IH]; intros H; [reflexivity|].
  simpl in H. apply andb_prop in H. destruct H as [Ha Hl].
  destruct l as [|b l]; [reflexivity|].
  change (removelast (a :: b :: l)) with (a :: removelast (b :: l)).
  cbn [forallb]. rewrite Ha. simpl. auto.
Qed.

Lemma forallb_impl {A} (P Q : A -> bool) (l : list A) :
  (forall a, P a = true -> Q a = true) ->
  forallb P l = true -> forallb Q l = true.
Proof.
  intros HPQ. induction l as [|a l IH]; intros H; [reflexivity|].
  simpl in *. apply andb_prop in H. destruct H as [Ha Hl].
  rewrite (HPQ a Ha). simpl. auto.
Qed.

(** When a property holds of every element before the last, an element
    without it has nothing after it. *)
Lemma only_last {A} (P : A -> bool) (l1 l2 : list A) (a : A) :
  forallb P (removelast (l1 ++ a :: l2)) = true ->
  P a = false ->
  l2 = [].
Proof.
  intros H Ha. destruct l2 as [|b l2]; [reflexivity|].
  rewrite removelast_app in H by discriminate.
  change (removelast (a :: b :: l2)) with (a :: removelast (b :: l2)) in H.
  rewrite forallb_app in H. apply andb_prop in H. destruct H as [_ H].
  simpl in H. rewrite Ha in H. discriminate.
Qed.

(** What holds before the last call of every run holds before the last
    call of the transcript, if acknowledged calls have it too. *)
Lemma Transcript_before_last (P : Packet * Completion -> bool) M :
  (forall d, P (d, Returns Fulfilled) = true) ->
  (forall d t fe L r,
      PacketRun d M t fe L r -> forallb P (removelast L) = true) ->
  forall ps L r,
    Transcript M ps L r -> forallb P (removelast L) = true.
Proof.
  intros Hack Hrun ps L r HT.
  induction HT as [ | d ps L1 L2 r H1 HT IH | d ps L x H1 | d ps L H1 ].
  - reflexivity.
  - assert (HL1 : forallb P L1 = true).
    { pose proof (Hrun _ _ _ _ _ H1) as Hb.
      apply PacketRun_shape in H1. destruct H1 as (F & -> & _).
      rewrite removelast_last in Hb.
      rewrite forallb_app, Hb. simpl. rewrite Hack. reflexivity. }
    destruct L2 as [|b L2].
    + rewrite app_nil_r. apply forallb_removelast, HL1.
    + rewrite removelast_app by discriminate.
      rewrite forallb_app, HL1, IH. reflexivity.
  - eapply Hrun; eassumption.
  - eapply Hrun; eassumption.
Qed.

(** Every call but the last of a send has settled. *)
Lemma Transcript_settled M ps L r :
  Transcript M ps L r -> forallb isSettled (removelast L) = true.
Proof.
  apply Transcript_before_last; [reflexivity|].
  intros d t fe L0 r0 Hrun. apply PacketRun_shape in Hrun.
  destruct r0 as [ | x | ].
  - destruct Hrun as (F & -> & HF). rewrite removelast_last.
    apply (forallb_impl isFailure); [apply isFailure_settled | exact HF].
  - apply forallb_removelast.
    apply (forallb_impl isFailure); [apply isFailure_settled | exact Hrun].
  - destruct Hrun as (F & -> & HF). rewrite removelast_last.
    apply (forallb_impl isFailure); [apply isFailure_settled | exact HF].
Qed.

(** Only the last call of a send can fail with a connection-fatal kind. *)
Lemma Transcript_fatal_last M ps L r :
  Transcript M ps L r ->
  forallb (fun a => negb (isFatal (snd a))) (removelast L) = true.
Proof.
  apply Transcript_before_last; [reflexivity|].
  intros d t fe L0 r0. apply PacketRun_fatal_last.
Qed.

(** Each call carries the packet whose number is the count of calls
    acknowledged before it. *)
Lemma Transcript_order M ps L r :
  Transcript M ps L r ->
  forall k p c,
    nth_error L k = Some (p, c) ->
    nth_error ps (acked (firstn k L)) = Some p.
Proof.
  intros HT.
  induction HT as [ | d ps L1 L2 r H1 HT IH | d ps L x H1 | d ps L H1 ];
    intros k p c Hk.
  - destruct k; discriminate.
  - destruct (Nat.lt_ge_cases k (List.length L1)) as [Hlt | Hge].
    + rewrite nth_error_app1 in Hk by exact Hlt.
      rewrite firstn_app.
      replace (k - List.length L1)%nat with 0%nat by lia.
      simpl firstn. rewrite app_nil_r.
      rewrite (PacketRun_acked_before _ _ _ _ _ _ H1 k Hlt).
      pose proof (Forall_nth_error _ _ _ _
                    (PacketRun_packets _ _ _ _ _ _ H1) Hk) as Hp.
      simpl in Hp. subst p. reflexivity.
    + rewrite nth_error_app2 in Hk by exact Hge.
      rewrite firstn_app, (firstn_all2 L1) by exact Hge.
      rewrite acked_app, (PacketRun_acked _ _ _ _ _ _ H1).
      simpl. eapply IH; eassumption.
  - assert (Hlt : (k < List.length L)%nat)
      by (apply nth_error_Some; congruence).
    rewrite (PacketRun_acked_before _ _ _ _ _ _ H1 k Hlt).
    pose proof (Forall_nth_error _ _ _ _
                  (PacketRun_packets _ _ _ _ _ _ H1) Hk) as Hp.
    simpl in Hp. subst p. reflexivity.
  - assert (Hlt : (k < List.length L)%nat)
      by (apply nth_error_Some; congruence).
    rewrite (PacketRun_acked_before _ _ _ _ _ _ H1 k Hlt).
    pose proof (Forall_nth_error _ _ _ _
                  (PacketRun_packets _ _ _ _ _ _ H1) Hk) as Hp.
    simpl in Hp. subst p. reflexivity.
Qed.

(** A send succeeds when every packet was acknowledged, and only then. *)
Lemma Transcript_acked M ps L r :
  Transcript M ps L r ->
  match r with
  | Fulfilled => acked L = List.length ps
  | _ => (acked L < List.length ps)%nat
  end.
Proof.
  intros HT.
  induction HT as [ | d ps L1 L2 r H1 HT IH | d ps L x H1 | d ps L H1 ].
  - reflexivity.
  - rewrite acked_app, (PacketRun_acked _ _ _ _ _ _ H1). simpl.
    destruct r; lia.
  - rewrite (PacketRun_acked _ _ _ _ _ _ H1). simpl. lia.
  - rewrite (PacketRun_acked _ _ _ _ _ _ H1). simpl. lia.
Qed.

Lemma failuresSinceAck_reset (F L : list (Packet * Completion))
    (a : Packet * Completion) :
  failureOf (snd a) = None ->
  forall acc, failuresSinceAck acc (F ++ a :: L) = failuresSinceAck [] L.
Proof.
  intros Ha. induction F as [|b F IH]; intros acc; simpl.
  - rewrite Ha. reflexivity.
  - destruct (failureOf (snd b)); apply IH.
Qed.

Lemma failuresSinceAck_snoc (L : list (Packet * Completion))
    (a : Packet * Completion) (e : DeviceError) :
  failureOf (snd a) = Some e ->
  forall acc,
    failuresSinceAck acc (L ++ [a]) = failuresSinceAck acc L ++ [e].
Proof.
  intros Ha. induction L as [|b L IH]; intros acc; simpl.
  - rewrite Ha. reflexivity.
  - destruct (failureOf (snd b)); apply IH.
Qed.

(** A send whose record ends in failed calls has failed. *)
Lemma Transcript_failures_rejected M ps L r :
  Transcript M ps L r ->
  failuresSinceAck [] L <> [] ->
  exists x, r = Rejected x.
Proof.
  intros HT.
  induction HT as [ | d ps L1 L2 r H1 HT IH | d ps L x H1 | d ps L H1 ];
    intros Hne.
  - contradiction Hne. reflexivity.
  - apply IH. apply PacketRun_shape in H1. destruct H1 as (F & -> & _).
    rewrite <- app_assoc in Hne. simpl in Hne.
    rewrite failuresSinceAck_reset in Hne by reflexivity. exact Hne.
  - eauto.
  - apply PacketRun_shape in H1. destruct H1 as (F & -> & _).
    rewrite failuresSinceAck_reset in Hne by reflexivity.
    contradiction Hne. reflexivity.
Qed.

(** A failed send fails with the first error caught since the last
    acknowledged call, or with [WRITE_TIMEOUT] if there is none. *)
Lemma Transcript_first_error M ps L r :
  Transcript M ps L r ->
  forall x, r = Rejected x ->
  x = ThrownDeviceError
        (hd (newDeviceError WRITE_TIMEOUT) (failuresSinceAck [] L)).
Proof.
  intros HT.
  induction HT as [ | d ps L1 L2 r H1 HT IH | d ps L x0 H1 | d ps L H1 ];
    intros x Hx; try discriminate.
  - apply PacketRun_shape in H1. destruct H1 as (F & -> & _).
    rewrite <- app_assoc. simpl.
    rewrite failuresSinceAck_reset by reflexivity. apply IH, Hx.
  - rewrite (PacketRun_first_error _ _ _ _ _ _ H1 x Hx).
    destruct (failuresSinceAck [] L); reflexivity.
Qed.

(** ** Command sender: the claims *)

Lemma hd_snoc {A} (l : list A) (d e : A) : hd d (l ++ [e]) = hd e l.
Proof. destruct l; reflexivity. Qed.

(** C3, as stated, fails: when the first attempt times out and the second
    fails with [CONNECTION_CLOSED], no third attempt is made but the error
    handed to the caller is the [WRITE_TIMEOUT] of the first attempt. *)
Lemma sendData_fatal_not_propagated :
  invocations
    (fst (sendData sampleConfig twoPackets closesOnSecond (freshWorld true)
            21 "102030" v1 (Some 5)))
  = [("A", Returns (Rejected (newDeviceError WRITE_TIMEOUT)));
     ("A", Returns (Rejected (newDeviceError CONNECTION_CLOSED)))]
  /\ snd (sendData sampleConfig twoPackets closesOnSecond (freshWorld true)
            21 "102030" v1 (Some 5))
     = Rejected (ThrownDeviceError (newDeviceError WRITE_TIMEOUT))
  /\ snd (sendData sampleConfig twoPackets closesOnSecond (freshWorld true)
            21 "102030" v1 (Some 5))
     <> Rejected (ThrownDeviceError (newDeviceError CONNECTION_CLOSED)).
Proof.
  split; [reflexivity|]. split; [reflexivity|].
  vm_compute. discriminate.
Qed.

(** C3, amended.  After an attempt that fails with [CONNECTION_CLOSED],
    [CONNECTION_NOT_OPEN] or [NOT_CONNECTED] no further call is made, for
    that packet or any other, and the send fails with the first error
    caught for that packet: the connection-fatal one when no earlier attempt
    of the packet failed, the error of the earliest failed attempt
    otherwise. *)
Theorem sendData_fatal_stops cfg enc env w command data version maxTries
    L1 p c L2 :
  invocations (fst (sendData cfg enc env w command data version maxTries))
  = invocations w ++ L1 ++ (p, c) :: L2 ->
  isFatal c = true ->
  L2 = []
  /\ exists e,
      failureOf c = Some e
      /\ snd (sendData cfg enc env w command data version maxTries)
         = Rejected (ThrownDeviceError (hd e (failuresSinceAck [] L1))).
Proof.
  intros Hinv Hfatal.
  destruct (sendData_Transcript cfg enc env w command data version maxTries)
    as (L & Hi & HT & _).
  rewrite Hi in Hinv. apply app_inv_head in Hinv. subst L.
  assert (HL2 : L2 = []).
  { apply (only_last (fun a => negb (isFatal (snd a))) L1 L2 (p, c)).
    - eapply Transcript_fatal_last; eassumption.
    - simpl. rewrite Hfatal. reflexivity. }
  subst L2. split; [reflexivity|].
  unfold isFatal in Hfatal.
  destruct (failureOf c) as [e|] eqn:He; [|discriminate].
  exists e. split; [reflexivity|].
  assert (Hfs : failuresSinceAck [] (L1 ++ [(p, c)])
                = failuresSinceAck [] L1 ++ [e])
    by (apply failuresSinceAck_snoc; exact He).
  destruct (Transcript_failures_rejected _ _ _ _ HT) as [x Hx].
  { rewrite Hfs. destruct (failuresSinceAck [] L1); discriminate. }
  rewrite Hx, (Transcript_first_error _ _ _ _ HT x Hx), Hfs, hd_snoc.
  reflexivity.
Qed.

Lemma sendData_fatal_stops_witness :
  @nil (Packet * Completion) = []
  /\ exists e,
      failureOf (Returns (Rejected (newDeviceError CONNECTION_CLOSED)))
      = Some e
      /\ snd (sendData sampleConfig twoPackets closesOnSecond
                (freshWorld true) 21 "102030" v1 (Some 5))
         = Rejected
             (ThrownDeviceError
                (hd e (failuresSinceAck []
                         [("A", Returns
                                  (Rejected
                                     (newDeviceError WRITE_TIMEOUT)))]))).
Proof.
  apply (sendData_fatal_stops sampleConfig twoPackets closesOnSecond
           (freshWorld true) 21 "102030" v1 (Some 5)
           [("A", Returns (Rejected (newDeviceError WRITE_TIMEOUT)))]
           "A" (Returns (Rejected (newDeviceError CONNECTION_CLOSED))) []).
  - reflexivity.
  - reflexivity.
Defined.

(** C7.  When the attempts of a packet all fail, the send fails, and the
    error handed to the caller is that of the first failed attempt of the
    packet, whatever the later attempts failed with; when no error was
    recorded it is a fresh [WRITE_TIMEOUT]. *)
Theorem sendData_first_error cfg enc env w command data version maxTries L :
  invocations (fst (sendData cfg enc env w command data version maxTries))
  = invocations w ++ L ->
  (failuresSinceAck [] L <> [] ->
   exists x,
     snd (sendData cfg enc env w command data version maxTries) = Rejected x)
  /\ (forall x,
        snd (sendData cfg enc env w command data version maxTries)
        = Rejected x ->
        x = ThrownDeviceError
              (hd (newDeviceError WRITE_TIMEOUT) (failuresSinceAck [] L))).
Proof.
  intros Hinv.
  destruct (sendData_Transcript cfg enc env w command data version maxTries)
    as (L' & Hi & HT & _).
  rewrite Hi in Hinv. apply app_inv_head in Hinv. subst L'.
  split.
  - eapply Transcript_failures_rejected; eassumption.
  - eapply Transcript_first_error; eassumption.
Qed.

Lemma sendData_first_error_witness :
  (failuresSinceAck []
     [("A", Returns (Rejected (newDeviceError WRITE_ERROR)));
      ("A", Returns (Rejected (newDeviceError WRITE_TIMEOUT)));
      ("A", Returns (Rejected (newDeviceError WRITE_TIMEOUT)))] <> [] ->
   exists x,
     snd (sendData sampleConfig twoPackets nackThenSilent (freshWorld true)
            21 "102030" v1 (Some 3)) = Rejected x)
  /\ (forall x,
        snd (sendData sampleConfig twoPackets nackThenSilent
               (freshWorld true) 21 "102030" v1 (Some 3))
        = Rejected x ->
        x = ThrownDeviceError
              (hd (newDeviceError WRITE_TIMEOUT)
                 (failuresSinceAck []
                    [("A", Returns (Rejected (newDeviceError WRITE_ERROR)));
                     ("A", Returns (Rejected (newDeviceError WRITE_TIMEOUT)));
                     ("A", Returns
                             (Rejected (newDeviceError WRITE_TIMEOUT)))]))).
Proof.
  apply (sendData_first_error sampleConfig twoPackets nackThenSilent
           (freshWorld true) 21 "102030" v1 (Some 3)).
  reflexivity.
Defined.

(** With a budget of no tries the closure makes no call and rejects with a
    fresh [WRITE_TIMEOUT]. *)
Example sendData_no_tries :
  sendData sampleConfig twoPackets silent (freshWorld true)
    21 "102030" v1 (Some 0)
  = (freshWorld true,
     Rejected (ThrownDeviceError (newDeviceError WRITE_TIMEOUT))).
Proof. reflexivity. Qed.

(** Two packets acknowledged in turn: the send succeeds and the packets
    went out in the encoder's order. *)
Example sendData_round_trip :
  snd (sendData sampleConfig twoPackets
         (fun _ => [Elapse 5; EmitAck (mkPacketData 1)])
         (freshWorld true) 21 "102030" v1 None)
  = Fulfilled
  /\ written
       (connection
          (fst (sendData sampleConfig twoPackets
                  (fun _ => [Elapse 5; EmitAck (mkPacketData 1)])
                  (freshWorld true) 21 "102030" v1 None)))
     = ["A"; "B"].
Proof. split; reflexivity. Qed.

(** C10.  When the encoder yields no packet, the send succeeds and leaves
    the connection untouched: nothing is written. *)
Theorem sendData_no_packets cfg enc env w command data version maxTries :
  enc data command version = [] ->
  sendData cfg enc env w command data version maxTries = (w, Fulfilled).
Proof. intros Henc. unfold sendData. rewrite Henc. reflexivity. Qed.

Lemma sendData_no_packets_witness :
  sendData sampleConfig noPackets silent (freshWorld true) 21 "" v1 None
  = (freshWorld true, Fulfilled).
Proof.
  apply (sendData_no_packets sampleConfig noPackets silent (freshWorld true)
           21 "" v1 None).
  reflexivity.
Defined.

Lemma acked_firstn_le (L : list (Packet * Completion)) (k : nat) :
  (acked (firstn k L) <= acked L)%nat.
Proof.
  rewrite <- (firstn_skipn k L) at 2. rewrite acked_app. lia.
Qed.

(** C4.  The calls of a send follow the encoder's order: each call carries
    the packet whose number is the count of acknowledged calls before it,
    so a packet is first written only when all packets before it are
    acknowledged, and a call is made only when the one before it has
    settled.  The send succeeds when as many calls were acknowledged as
    there are packets; otherwise fewer were, and no call was made for a
    packet after the one that failed. *)
Theorem sendData_in_order cfg enc env w command data version maxTries :
  exists L,
    invocations (fst (sendData cfg enc env w command data version maxTries))
    = invocations w ++ L
    /\ (forall k p c,
          nth_error L k = Some (p, c) ->
          nth_error (enc data command version) (acked (firstn k L)) = Some p
          /\ (acked (firstn k L) <= acked L)%nat)
    /\ forallb isSettled (removelast L) = true
    /\ match snd (sendData cfg enc env w command data version maxTries) with
       | Fulfilled => acked L = List.length (enc data command version)
       | _ => (acked L < List.length (enc data command version))%nat
       end
    /\ written
         (connection
            (fst (sendData cfg enc env w command data version maxTries)))
       = written (connection w) ++ map fst (filter wrote L).
Proof.
  destruct (sendData_Transcript cfg enc env w command data version maxTries)
    as (L & Hi & HT & Hw & _).
  exists L. split; [exact Hi|]. split; [|split; [|split]].
  - intros k p c Hk. split.
    + eapply Transcript_order; eassumption.
    + apply acked_firstn_le.
  - eapply Transcript_settled; eassumption.
  - apply Transcript_acked in HT. exact HT.
  - exact Hw.
Qed.

Lemma Transcript_single ps L r :
  Transcript 1 ps L r -> map fst L = firstn (List.length L) ps.
Proof.
  intros HT.
  assert (Hshort : forall d L0 r0,
             PacketRun d 1 1 None L0 r0 ->
             L0 = [] \/ exists c, L0 = [(d, c)]).
  { intros d L0 r0 Hrun.
    pose proof (PacketRun_length _ _ _ _ _ _ Hrun) as Hlen.
    pose proof (PacketRun_packets _ _ _ _ _ _ Hrun) as Hp.
    destruct L0 as [|[p c] [|b L0]]; simpl in Hlen; [auto | | lia].
    right. exists c. inversion Hp; subst. simpl in *. subst. reflexivity. }
  remember 1 as M eqn:HM.
  induction HT as [ | d ps L1 L2 r H1 HT IH | d ps L x H1 | d ps L H1 ];
    subst M.
  - reflexivity.
  - destruct (Hshort _ _ _ H1) as [-> | [c ->]].
    + apply PacketRun_shape in H1. destruct H1 as (F & HF & _).
      destruct F; discriminate.
    + simpl. rewrite IH by reflexivity. reflexivity.
  - destruct (Hshort _ _ _ H1) as [-> | [c ->]]; reflexivity.
  - destruct (Hshort _ _ _ H1) as [-> | [c ->]]; reflexivity.
Qed.

(** C6.  With command 255 the calls of a send are, one for one, the first
    packets of the encoder's list: no packet is attempted twice, whatever
    [maxTries] is. *)
Theorem sendData_command_255 cfg enc env w data version maxTries :
  exists L,
    invocations (fst (sendData cfg enc env w 255 data version maxTries))
    = invocations w ++ L
    /\ map fst L = firstn (List.length L) (enc data 255 version)
    /\ (List.length L <= List.length (enc data 255%Z version))%nat.
Proof.
  destruct (sendData_Transcript cfg enc env w 255 data version maxTries)
    as (L & Hi & HT & _).
  exists L. split; [exact Hi|].
  change (effectiveTries 255 match maxTries with
                             | Some m => m
                             | None => 5
                             end) with 1 in HT.
  pose proof (Transcript_single _ _ _ HT) as Hmap.
  split; [exact Hmap|].
  apply (f_equal (@List.length Packet)) in Hmap.
  rewrite length_map, length_firstn in Hmap. lia.
Qed.

Lemma errorType_timeout_not_fatal (e : DeviceError) :
  errorType e = WRITE_TIMEOUT ->
  includes connectionFatal (errorType e) = false.
Proof. intros ->. reflexivity. Qed.

Lemma PacketRun_timeouts d M tries fe L r :
  PacketRun d M tries fe L r ->
  Forall (fun a => option_map errorType (failureOf (snd a))
                   = Some WRITE_TIMEOUT) L ->
  List.length L = Z.to_nat (M + 1 - tries) /\ exists x, r = Rejected x.
Proof.
  induction 1; intros HF.
  - split; [simpl; lia | eauto].
  - inversion HF; subst. discriminate.
  - inversion HF; subst. discriminate.
  - inversion HF as [|a l Ha Hl]; subst. simpl in Ha. rewrite H0 in Ha.
    simpl in Ha. injection Ha as Ha.
    rewrite (errorType_timeout_not_fatal e Ha) in H1, IHPacketRun.
    destruct (IHPacketRun Hl) as [Hlen Hr].
    split; [simpl; lia | exact Hr].
Qed.

Lemma Forall_eq_repeat {A} (v : A) (l : list A) :
  Forall (fun a => a = v) l -> l = repeat v (List.length l).
Proof.
  induction 1 as [|a l Ha Hl IH]; [reflexivity|].
  simpl. rewrite Ha, <- IH. reflexivity.
Qed.

(** A call known to come from [writePacket] that failed with kind
    [WRITE_TIMEOUT] returned a promise rejected by the timer. *)
Lemma timeout_completion (c : Completion) :
  knownCompletion c ->
  option_map errorType (failureOf c) = Some WRITE_TIMEOUT ->
  c = Returns (Rejected (newDeviceError WRITE_TIMEOUT)).
Proof.
  destruct c as [e | [ | e | ]]; simpl; intros Hk Hf; try discriminate.
  - subst e. discriminate.
  - destruct Hk as [-> | [-> | ->]]; try discriminate. reflexivity.
Qed.

(** C5.  With [maxTries] 5 (given or by default), a command other than
    255 and a connection on which every call fails with [WRITE_TIMEOUT],
    the send makes exactly five calls, all of them writes of the first
    packet, and then fails with [WRITE_TIMEOUT]. *)
Theorem sendData_always_timeout cfg enc env w command data version maxTries
    p rest L :
  maxTries = None \/ maxTries = Some 5 ->
  command <> 255 ->
  enc data command version = p :: rest ->
  invocations (fst (sendData cfg enc env w command data version maxTries))
  = invocations w ++ L ->
  Forall (fun a => option_map errorType (failureOf (snd a))
                   = Some WRITE_TIMEOUT) L ->
  L = repeat (p, Returns (Rejected (newDeviceError WRITE_TIMEOUT))) 5
  /\ snd (sendData cfg enc env w command data version maxTries)
     = Rejected (ThrownDeviceError (newDeviceError WRITE_TIMEOUT))
  /\ written
       (connection
          (fst (sendData cfg enc env w command data version maxTries)))
     = written (connection w) ++ repeat p 5.
Proof.
  intros Hmax Hcmd Henc Hinv Hall.
  destruct (sendData_Transcript cfg enc env w command data version maxTries)
    as (L' & Hi & HT & Hw & Hk).
  rewrite Hi in Hinv. apply app_inv_head in Hinv. subst L'.
  assert (HM : effectiveTries command
                 match maxTries with Some m => m | None => 5 end = 5).
  { unfold effectiveTries.
    destruct (command =? 255) eqn:E; [apply Z.eqb_eq in E; contradiction|].
    destruct Hmax as [-> | ->]; reflexivity. }
  rewrite HM, Henc in HT.
  assert (Hrun : exists r, PacketRun p 5 1 None L r
                           /\ snd (sendData cfg enc env w command data
                                     version maxTries) = r).
  { inversion HT as [ | d ps L1 L2 r H1 HT' | d ps L0 x H1 | d ps L0 H1 ];
      subst; [|eauto|eauto].
    exfalso. apply PacketRun_shape in H1. destruct H1 as (F & -> & _).
    rewrite <- app_assoc in Hall. apply Forall_app in Hall.
    destruct Hall as [_ Hall]. inversion Hall; subst. discriminate. }
  destruct Hrun as (r & Hrun & Hr).
  destruct (PacketRun_timeouts _ _ _ _ _ _ Hrun Hall) as [Hlen [x Hx]].
  change (Z.to_nat (5 + 1 - 1)) with 5%nat in Hlen.
  assert (HL : L = repeat (p, Returns (Rejected
                                         (newDeviceError WRITE_TIMEOUT))) 5).
  { rewrite <- Hlen. apply Forall_eq_repeat.
    pose proof (PacketRun_packets _ _ _ _ _ _ Hrun) as Hp.
    rewrite Forall_forall in *. intros [q c] Hin.
    specialize (Hp _ Hin). specialize (Hall _ Hin). specialize (Hk _ Hin).
    simpl in *. subst q.
    rewrite (timeout_completion c Hk Hall). reflexivity. }
  split; [exact HL|]. split.
  - rewrite Hr, Hx.
    rewrite (PacketRun_first_error _ _ _ _ _ _ Hrun x Hx), HL.
    reflexivity.
  - rewrite Hw, HL. reflexivity.
Qed.

Lemma sendData_always_timeout_witness :
  invocations
    (fst (sendData sampleConfig twoPackets silent (freshWorld true)
            21 "102030" v1 None))
  = repeat ("A", Returns (Rejected (newDeviceError WRITE_TIMEOUT))) 5
  /\ snd (sendData sampleConfig twoPackets silent (freshWorld true)
            21 "102030" v1 None)
     = Rejected (ThrownDeviceError (newDeviceError WRITE_TIMEOUT))
  /\ written
       (connection
          (fst (sendData sampleConfig twoPackets silent (freshWorld true)
                  21 "102030" v1 None)))
     = written (connection (freshWorld true)) ++ repeat "A" 5.
Proof.
  apply (sendData_always_timeout sampleConfig twoPackets silent
           (freshWorld true) 21 "102030" v1 None "A" ["B"]).
  - left. reflexivity.
  - lia.
  - reflexivity.
  - reflexivity.
  - repeat constructor.
Defined.

(** ** Further properties: the error types *)

Lemma enumValue_inj (a b : DeviceErrorType) :
  enumValue a = enumValue b -> a = b.
Proof. destruct a, b; simpl; intros H; try reflexivity; discriminate. Qed.

(** The strings of the enum are pairwise distinct, so [includes] on enum
    members is plain membership. *)
Theorem includes_In (l : list DeviceErrorType) (t : DeviceErrorType) :
  includes l t = true <-> In t l.
Proof.
  unfold includes. rewrite existsb_exists. split.
  - intros (x & Hin & Heq). apply String.eqb_eq, enumValue_inj in Heq.
    subst x. exact Hin.
  - intros Hin. exists t. split; [exact Hin | apply String.eqb_refl].
Qed.

(** The constructor never falls back to [UNKNOWN_COMMUNICATION_ERROR]: the
    error carries the kind it was built with, as [code] and as
    [errorType], and two errors of different kinds differ. *)
Theorem newDeviceError_kind (t u : DeviceErrorType) :
  code (newDeviceError t) = t
  /\ errorType (newDeviceError t) = t
  /\ (newDeviceError t = newDeviceError u -> t = u).
Proof.
  assert (H : forall k, errorType (newDeviceError k) = k)
    by (intros k; destruct k; reflexivity).
  split; [destruct t; reflexivity|]. split; [apply H|].
  intros Heq. rewrite <- (H t), <- (H u), Heq. reflexivity.
Qed.

(** The kinds on which [sendData] gives up retrying are all marked
    [doRetry = false] in the table of error objects. *)
Theorem connectionFatal_not_retryable (t : DeviceErrorType) :
  includes connectionFatal t = true ->
  doRetry (newDeviceError t) = false.
Proof. destruct t; simpl; intros H; try discriminate; reflexivity. Qed.

Lemma connectionFatal_not_retryable_witness :
  doRetry (newDeviceError CONNECTION_NOT_OPEN) = false.
Proof.
  apply (connectionFatal_not_retryable CONNECTION_NOT_OPEN). reflexivity.
Defined.

(** ** Further properties: packet transport *)

Lemma knownCompletion_failure (c : Completion) (e : DeviceError) :
  knownCompletion c -> failureOf c = Some e -> transportError e.
Proof.
  unfold transportError.
  destruct c as [e' | [ | e' | ]]; simpl; intros Hk Hf;
    try discriminate; injection Hf as <-; auto.
Qed.

(** A call fails with [WRITE_ERROR], [CONNECTION_CLOSED] or
    [WRITE_TIMEOUT] and nothing else; it throws only
    [CONNECTION_CLOSED]; and it never yields [CONNECTION_NOT_OPEN] or
    [NOT_CONNECTED], the two other kinds [sendData] looks for. *)
Theorem writePacket_error_kinds cfg w packet version events e :
  failureOf (snd (writePacket cfg w packet version events)) = Some e ->
  (e = newDeviceError WRITE_ERROR
   \/ e = newDeviceError CONNECTION_CLOSED
   \/ e = newDeviceError WRITE_TIMEOUT)
  /\ (snd (writePacket cfg w packet version events) = Throws e ->
      e = newDeviceError CONNECTION_CLOSED /\ isConnected w = false)
  /\ errorType e <> CONNECTION_NOT_OPEN
  /\ errorType e <> NOT_CONNECTED.
Proof.
  intros Hf.
  pose proof (knownCompletion_failure _ _
                (writePacket_knownCompletion cfg w packet version events) Hf)
    as Hk.
  split; [exact Hk|]. split.
  - unfold writePacket. destruct (isConnected w); simpl.
    + destruct (run events _) as [w' c']. discriminate.
    + intros H. injection H as <-. split; reflexivity.
  - destruct Hk as [-> | [-> | ->]]; split; discriminate.
Qed.

Lemma writePacket_error_kinds_witness :
  (newDeviceError WRITE_TIMEOUT = newDeviceError WRITE_ERROR
   \/ newDeviceError WRITE_TIMEOUT = newDeviceError CONNECTION_CLOSED
   \/ newDeviceError WRITE_TIMEOUT = newDeviceError WRITE_TIMEOUT)
  /\ (snd (writePacket sampleConfig (freshWorld true) "aa" v1 [Elapse 2000])
      = Throws (newDeviceError WRITE_TIMEOUT) ->
      newDeviceError WRITE_TIMEOUT = newDeviceError CONNECTION_CLOSED
      /\ isConnected (freshWorld true) = false)
  /\ errorType (newDeviceError WRITE_TIMEOUT) <> CONNECTION_NOT_OPEN
  /\ errorType (newDeviceError WRITE_TIMEOUT) <> NOT_CONNECTED.
Proof.
  apply (writePacket_error_kinds sampleConfig (freshWorld true) "aa" v1
           [Elapse 2000] (newDeviceError WRITE_TIMEOUT)).
  reflexivity.
Defined.

(** Whenever a call fails, the retry decision of [sendData] agrees with
    the [doRetry] flag of the error: the loop goes on exactly when the
    error says a retry makes sense. *)
Theorem writePacket_retry_agrees_doRetry cfg w packet version events e :
  failureOf (snd (writePacket cfg w packet version events)) = Some e ->
  includes connectionFatal (errorType e) = negb (doRetry e).
Proof.
  intros Hf.
  destruct (knownCompletion_failure _ _
              (writePacket_knownCompletion cfg w packet version events) Hf)
    as [-> | [-> | ->]]; reflexivity.
Qed.

Lemma writePacket_retry_agrees_doRetry_witness :
  includes connectionFatal (errorType (newDeviceError CONNECTION_CLOSED))
  = negb (doRetry (newDeviceError CONNECTION_CLOSED)).
Proof.
  apply (writePacket_retry_agrees_doRetry sampleConfig (freshWorld true)
           "aa" v1 [EmitClose (Some "unplugged")]
           (newDeviceError CONNECTION_CLOSED)).
  reflexivity.
Defined.

(** A call on an open connection writes its packet exactly once, whatever
    happens afterwards: the transport never writes again by itself. *)
Theorem writePacket_one_write cfg w packet version events :
  isConnected w = true ->
  written (connection (fst (writePacket cfg w packet version events)))
  = written (connection w) ++ [packet]
  /\ exists p, snd (writePacket cfg w packet version events) = Returns p.
Proof.
  intros Hup. unfold writePacket. rewrite Hup. simpl negb. cbv iota.
  match goal with |- context [run events ?s] =>
    pose proof (run_frame events s) as [_ Hw];
    destruct (run events s) as [w' c'] end.
  simpl in *. split; [exact Hw | eauto].
Qed.

Lemma writePacket_one_write_witness :
  written (connection (fst (writePacket sampleConfig (freshWorld true) "aa"
                              v1 [EmitAck (mkPacketData 7); Elapse 9000])))
  = written (connection (freshWorld true)) ++ ["aa"]
  /\ exists p,
      snd (writePacket sampleConfig (freshWorld true) "aa" v1
             [EmitAck (mkPacketData 7); Elapse 9000]) = Returns p.
Proof.
  apply (writePacket_one_write sampleConfig (freshWorld true) "aa" v1
           [EmitAck (mkPacketData 7); Elapse 9000]).
  reflexivity.
Defined.



(** An acknowledgment with the ACK code, arriving before the deadline and
    before anything else, fulfils the call and leaves no listener and no
    timer; what comes later changes nothing. *)
Theorem writePacket_acknowledged cfg w packet version pre post :
  idle w = true -> isConnected w = true ->
  quiet (ACK_TIME (usableConstantsFor cfg version)) pre = true ->
  snd (writePacket cfg w packet version
         (pre ++ EmitAck (mkPacketData (ACK_PACKET (commands_v1 cfg)))
              :: post))
  = Returns Fulfilled
  /\ idle (fst (writePacket cfg w packet version
                  (pre ++ EmitAck (mkPacketData
                                     (ACK_PACKET (commands_v1 cfg)))
                       :: post))) = true.
Proof.
  intros Hidle Hup Hq.
  destruct (writePacket_after_quiet cfg w packet version pre
              (EmitAck (mkPacketData (ACK_PACKET (commands_v1 cfg)))
                 :: post) Hidle Hup Hq) as (t' & up' & Hw).
  rewrite Hw. cbv zeta. rewrite run_cons, deliver_armed_ack.
  unfold classify. simpl commandType. rewrite Z.eqb_refl.
  destruct (run_released w packet (commands_v1 cfg) post t' up' true
              Fulfilled)
    as (t'' & up'' & fl'' & p'' & Hrun & Hs & _).
  rewrite Hrun. simpl. rewrite (Hs eq_refl). split; reflexivity.
Qed.

Lemma writePacket_acknowledged_witness :
  snd (writePacket sampleConfig (freshWorld true) "aa" v1
         ([Elapse 1999]
            ++ EmitAck (mkPacketData (ACK_PACKET (commands_v1 sampleConfig)))
            :: [Elapse 1; EmitClose None; WriteFails "late"]))
  = Returns Fulfilled
  /\ idle (fst (writePacket sampleConfig (freshWorld true) "aa" v1
                  ([Elapse 1999]
                     ++ EmitAck (mkPacketData
                                   (ACK_PACKET (commands_v1 sampleConfig)))
                     :: [Elapse 1; EmitClose None; WriteFails "late"])))
     = true.
Proof.
  apply (writePacket_acknowledged sampleConfig (freshWorld true) "aa" v1
           [Elapse 1999] [Elapse 1; EmitClose None; WriteFails "late"]);
    reflexivity.
Defined.

(** Once a call has thrown or its promise has settled, no further event
    changes its result: a late acknowledgment, a second close or a late
    write failure is ignored. *)
Theorem writePacket_outcome_final cfg w packet version events late :
  snd (writePacket cfg w packet version events) <> Returns Pending ->
  snd (writePacket cfg w packet version (events ++ late))
  = snd (writePacket cfg w packet version events).
Proof.
  unfold writePacket. destruct (isConnected w); simpl; [|reflexivity].
  rewrite run_app.
  destruct (run events _) as [w1 c1] eqn:E1. simpl. intros Hs.
  assert (Hset : settled (promise c1) = true)
    by (destruct (promise c1); try reflexivity; congruence).
  pose proof (run_settled_final late w1 c1 Hset) as Hfin.
  destruct (run late (w1, c1)) as [w2 c2]. simpl in *.
  rewrite Hfin. reflexivity.
Qed.

Lemma writePacket_outcome_final_witness :
  snd (writePacket sampleConfig (freshWorld true) "aa" v1
         ([Elapse 2000]
            ++ [EmitAck (mkPacketData 1); EmitClose None; WriteFails "x"]))
  = snd (writePacket sampleConfig (freshWorld true) "aa" v1 [Elapse 2000]).
Proof.
  apply (writePacket_outcome_final sampleConfig (freshWorld true) "aa" v1
           [Elapse 2000]
           [EmitAck (mkPacketData 1); EmitClose None; WriteFails "x"]).
  simpl. discriminate.
Defined.

(** A call made on an idle connection that has thrown or settled has
    removed both its listeners and left no timer scheduled. *)
Theorem writePacket_releases cfg w packet version events :
  idle w = true ->
  snd (writePacket cfg w packet version events) <> Returns Pending ->
  listeners (connection (fst (writePacket cfg w packet version events))) = []
  /\ timers (fst (writePacket cfg w packet version events)) = [].
Proof.
  intros Hidle Hs.
  pose proof (writePacket_settled_idle cfg w packet version events Hidle Hs)
    as Hi.
  unfold idle in Hi.
  destruct (listeners (connection
                         (fst (writePacket cfg w packet version events))));
    [|discriminate].
  destruct (timers (fst (writePacket cfg w packet version events)));
    [|discriminate].
  split; reflexivity.
Qed.

Lemma writePacket_releases_witness :
  listeners (connection (fst (writePacket sampleConfig (freshWorld true) "aa"
                                v1 [Elapse 100; EmitClose None]))) = []
  /\ timers (fst (writePacket sampleConfig (freshWorld true) "aa" v1
                    [Elapse 100; EmitClose None])) = [].
Proof.
  apply (writePacket_releases sampleConfig (freshWorld true) "aa" v1
           [Elapse 100; EmitClose None]).
  - reflexivity.
  - simpl. discriminate.
Defined.

(** When every acknowledgment carries the ACK or the NACK code and the
    events reach the deadline, a call on an idle connection has an
    outcome: it does not stay pending. *)
Theorem writePacket_has_outcome cfg w packet version events :
  idle w = true ->
  forallb (knownAck (commands_v1 cfg)) events = true ->
  expires (ACK_TIME (usableConstantsFor cfg version)) events = true ->
  snd (writePacket cfg w packet version events) <> Returns Pending
  /\ idle (fst (writePacket cfg w packet version events)) = true.
Proof.
  intros Hidle Hknown Hexp.
  assert (Hs : snd (writePacket cfg w packet version events)
               <> Returns Pending).
  { destruct (isConnected w) eqn:Hup.
    - destruct (writePacket_settles cfg w packet version events
                  Hidle Hup Hknown Hexp) as (p & Hp & Hset & _).
      rewrite Hp. destruct p; try discriminate.
    - unfold writePacket. rewrite Hup. simpl. discriminate. }
  split; [exact Hs|].
  apply writePacket_settled_idle; assumption.
Qed.

Lemma writePacket_has_outcome_witness :
  snd (writePacket sampleConfig (freshWorld true) "aa" v1
         [Elapse 1500; SetConnected false; Elapse 500])
  <> Returns Pending
  /\ idle (fst (writePacket sampleConfig (freshWorld true) "aa" v1
                  [Elapse 1500; SetConnected false; Elapse 500])) = true.
Proof.
  apply (writePacket_has_outcome sampleConfig (freshWorld true) "aa" v1
           [Elapse 1500; SetConnected false; Elapse 500]); reflexivity.
Defined.

Lemma writePacket_times_out_witness :
  snd (writePacket sampleConfig (freshWorld true) "aa" v2
         ([Elapse 200; Elapse 299] ++ Elapse 1 :: [EmitAck (mkPacketData 1)]))
  = Returns (Rejected (newDeviceError WRITE_TIMEOUT)).
Proof.
  apply (writePacket_times_out sampleConfig (freshWorld true) "aa" v2
           [Elapse 200; Elapse 299] 1 [EmitAck (mkPacketData 1)]);
    reflexivity.
Defined.

(** ** Further properties: command sender *)

Lemma filter_acked_failures F :
  forallb isFailure F = true -> filter isAcked F = [].
Proof.
  induction F as [|a F IH]; intros HF; [reflexivity|].
  simpl in HF. apply andb_prop in HF. destruct HF as [Ha HF].
  simpl. rewrite (isFailure_not_acked a Ha). auto.
Qed.

Lemma PacketRun_acked_calls d M tries fe L r :
  PacketRun d M tries fe L r ->
  filter isAcked L
  = match r with Fulfilled => [(d, Returns Fulfilled)] | _ => [] end.
Proof.
  intros Hrun. apply PacketRun_shape in Hrun. destruct r as [ | x | ].
  - destruct Hrun as (F & -> & HF).
    rewrite filter_app, (filter_acked_failures F HF). reflexivity.
  - apply filter_acked_failures, Hrun.
  - destruct Hrun as (F & -> & HF).
    rewrite filter_app, (filter_acked_failures F HF). reflexivity.
Qed.

Lemma Transcript_acked_packets M ps L r :
  Transcript M ps L r ->
  map fst (filter isAcked L) = firstn (acked L) ps.
Proof.
  intros HT.
  induction HT as [ | d ps L1 L2 r H1 HT IH | d ps L x H1 | d ps L H1 ].
  - reflexivity.
  - rewrite acked_app, (PacketRun_acked _ _ _ _ _ _ H1), filter_app,
      (PacketRun_acked_calls _ _ _ _ _ _ H1), map_app, IH.
    reflexivity.
  - rewrite (PacketRun_acked _ _ _ _ _ _ H1),
      (PacketRun_acked_calls _ _ _ _ _ _ H1). reflexivity.
  - rewrite (PacketRun_acked _ _ _ _ _ _ H1),
      (PacketRun_acked_calls _ _ _ _ _ _ H1). reflexivity.
Qed.

(** The acknowledged calls of a send carry the first packets of the
    encoder's list, each once and in order; when the send succeeds they
    carry the whole list. *)
Theorem sendData_acked_packets cfg enc env w command data version maxTries :
  exists L,
    invocations (fst (sendData cfg enc env w command data version maxTries))
    = invocations w ++ L
    /\ map fst (filter isAcked L)
       = firstn (acked L) (enc data command version)
    /\ (snd (sendData cfg enc env w command data version maxTries)
        = Fulfilled ->
        map fst (filter isAcked L) = enc data command version).
Proof.
  destruct (sendData_Transcript cfg enc env w command data version maxTries)
    as (L & Hi & HT & _).
  exists L. split; [exact Hi|].
  pose proof (Transcript_acked_packets _ _ _ _ HT) as Hmap.
  split; [exact Hmap|].
  intros Hok. apply Transcript_acked in HT. rewrite Hok in HT.
  rewrite Hmap, HT. apply firstn_all.
Qed.

Lemma Transcript_length M ps L r :
  Transcript M ps L r ->
  (List.length L <= Z.to_nat M * List.length ps)%nat.
Proof.
  intros HT.
  assert (Hrun : forall d L0 r0,
             PacketRun d M 1 None L0 r0 ->
             (List.length L0 <= Z.to_nat M)%nat).
  { intros d L0 r0 H. apply PacketRun_length in H.
    replace (M + 1 - 1) with M in H by lia. exact H. }
  induction HT as [ | d ps L1 L2 r H1 HT IH | d ps L x H1 | d ps L H1 ];
    simpl List.length; rewrite ?length_app, ?Nat.mul_succ_r.
  - lia.
  - specialize (Hrun _ _ _ H1). lia.
  - specialize (Hrun _ _ _ H1). lia.
  - specialize (Hrun _ _ _ H1). lia.
Qed.

(** A send never calls [writePacket] more than [_maxTries] times per
    packet: the number of calls is at most [_maxTries] times the number of
    packets, where [_maxTries] is 1 for command 255 and [maxTries]
    otherwise. *)
Theorem sendData_calls_bounded cfg enc env w command data version maxTries :
  exists L,
    invocations (fst (sendData cfg enc env w command data version maxTries))
    = invocations w ++ L
    /\ (List.length L
        <= Z.to_nat (effectiveTries command
                       (match maxTries with Some m => m | None => 5 end))
           * List.length (enc data command version))%nat.
Proof.
  destruct (sendData_Transcript cfg enc env w command data version maxTries)
    as (L & Hi & HT & _).
  exists L. split; [exact Hi|]. eapply Transcript_length; eassumption.
Qed.

Lemma Transcript_settled_all M ps L r :
  Transcript M ps L r ->
  forallb isSettled L = match r with Pending => false | _ => true end.
Proof.
  intros HT.
  assert (Hfail : forall F, forallb isFailure F = true ->
                            forallb isSettled F = true)
    by (intros F; apply forallb_impl, isFailure_settled).
  induction HT as [ | d ps L1 L2 r H1 HT IH | d ps L x H1 | d ps L H1 ].
  - reflexivity.
  - apply PacketRun_shape in H1. destruct H1 as (F & -> & HF).
    rewrite !forallb_app, (Hfail F HF), IH. reflexivity.
  - apply PacketRun_shape in H1. apply Hfail, H1.
  - apply PacketRun_shape in H1. destruct H1 as (F & -> & HF).
    rewrite forallb_app, (Hfail F HF). reflexivity.
Qed.

(** A send stays pending exactly when one of its calls of [writePacket]
    never settles; that call is then the last one made. *)
Theorem sendData_hangs_iff cfg enc env w command data version maxTries :
  exists L,
    invocations (fst (sendData cfg enc env w command data version maxTries))
    = invocations w ++ L
    /\ (snd (sendData cfg enc env w command data version maxTries) = Pending
        <-> forallb isSettled L = false)
    /\ forallb isSettled (removelast L) = true.
Proof.
  destruct (sendData_Transcript cfg enc env w command data version maxTries)
    as (L & Hi & HT & _).
  exists L. split; [exact Hi|]. split.
  - rewrite (Transcript_settled_all _ _ _ _ HT).
    destruct (snd (sendData cfg enc env w command data version maxTries));
      split; intros H; try reflexivity; discriminate.
  - eapply Transcript_settled; eassumption.
Qed.

Lemma Transcript_all_acked M ps L r :
  Transcript M ps L r ->
  0 < M ->
  Forall (fun a => snd a = Returns Fulfilled) L ->
  r = Fulfilled /\ L = map (fun p => (p, Returns Fulfilled)) ps.
Proof.
  intros HT HM.
  assert (Hnone : forall F,
             forallb isFailure F = true ->
             Forall (fun a => snd a = Returns Fulfilled) F -> F = []).
  { intros [|a F] HF Hall; [reflexivity|].
    inversion Hall as [|a' l Ha Hl]; subst. simpl in HF.
    unfold isFailure in HF. rewrite Ha in HF. discriminate. }
  induction HT as [ | d ps L1 L2 r H1 HT IH | d ps L x H1 | d ps L H1 ];
    intros Hall.
  - split; reflexivity.
  - apply Forall_app in Hall. destruct Hall as [Hall1 Hall2].
    destruct (IH Hall2) as [-> ->].
    apply PacketRun_shape in H1. destruct H1 as (F & -> & HF).
    apply Forall_app in Hall1. destruct Hall1 as [HallF _].
    rewrite (Hnone F HF HallF). split; reflexivity.
  - exfalso. pose proof (PacketRun_shape _ _ _ _ _ _ H1) as HF.
    simpl in HF. rewrite (Hnone L HF Hall) in H1.
    inversion H1; subst. lia.
  - exfalso. apply PacketRun_shape in H1. destruct H1 as (F & -> & HF).
    apply Forall_app in Hall. destruct Hall as [_ Hall].
    inversion Hall; subst. discriminate.
Qed.

Lemma wrote_all_acked (ps : list Packet) :
  map fst (filter wrote (map (fun p => (p, Returns Fulfilled)) ps)) = ps.
Proof.
  induction ps as [|p ps IH]; [reflexivity|].
  simpl. rewrite IH. reflexivity.
Qed.

(** On a connection that acknowledges every call, with a budget of at
    least one try, the send succeeds after writing each packet of the
    encoder's list exactly once, in order. *)
Theorem sendData_all_acknowledged cfg enc env w command data version maxTries
    L :
  0 < effectiveTries command
        (match maxTries with Some m => m | None => 5 end) ->
  invocations (fst (sendData cfg enc env w command data version maxTries))
  = invocations w ++ L ->
  Forall (fun a => snd a = Returns Fulfilled) L ->
  snd (sendData cfg enc env w command data version maxTries) = Fulfilled
  /\ L = map (fun p => (p, Returns Fulfilled)) (enc data command version)
  /\ written
       (connection
          (fst (sendData cfg enc env w command data version maxTries)))
     = written (connection w) ++ enc data command version.
Proof.
  intros HM Hinv Hall.
  destruct (sendData_Transcript cfg enc env w command data version maxTries)
    as (L' & Hi & HT & Hw & _).
  rewrite Hi in Hinv. apply app_inv_head in Hinv. subst L'.
  destruct (Transcript_all_acked _ _ _ _ HT HM Hall) as [Hr HL].
  split; [exact Hr|]. split; [exact HL|].
  rewrite Hw, HL. f_equal. apply wrote_all_acked.
Qed.

Lemma sendData_all_acknowledged_witness :
  snd (sendData sampleConfig twoPackets acksAll (freshWorld true)
         21 "102030" v1 None) = Fulfilled
  /\ [("A", Returns Fulfilled); ("B", Returns Fulfilled)]
     = map (fun p => (p, Returns Fulfilled)) (twoPackets "102030" 21 v1)
  /\ written
       (connection
          (fst (sendData sampleConfig twoPackets acksAll (freshWorld true)
                  21 "102030" v1 None)))
     = written (connection (freshWorld true)) ++ twoPackets "102030" 21 v1.
Proof.
  apply (sendData_all_acknowledged sampleConfig twoPackets acksAll
           (freshWorld true) 21 "102030" v1 None
           [("A", Returns Fulfilled); ("B", Returns Fulfilled)]).
  - reflexivity.
  - reflexivity.
  - repeat constructor.
Defined.

(** With a budget below one try and a command other than 255, a send of
    at least one packet makes no call at all and fails with
    [WRITE_TIMEOUT], leaving the connection as it was. *)
Theorem sendData_no_budget cfg enc env w command data version m :
  command <> 255 ->
  m <= 0 ->
  enc data command version <> [] ->
  sendData cfg enc env w command data version (Some m)
  = (w, Rejected (ThrownDeviceError (newDeviceError WRITE_TIMEOUT))).
Proof.
  intros Hcmd Hm Henc. unfold sendData.
  destruct (enc data command version) as [|p ps]; [contradiction|].
  simpl. unfold dataListEntry.
  destruct (command =? 255) eqn:E; [apply Z.eqb_eq in E; contradiction|].
  simpl retry.
  assert (Hle : (1 <=? m) = false) by (apply Z.leb_gt; lia).
  rewrite Hle. reflexivity.
Qed.

Lemma sendData_no_budget_witness :
  sendData sampleConfig twoPackets acksAll (freshWorld true) 21 "102030" v1
    (Some (-3))
  = (freshWorld true,
     Rejected (ThrownDeviceError (newDeviceError WRITE_TIMEOUT))).
Proof.
  apply (sendData_no_budget sampleConfig twoPackets acksAll (freshWorld true)
           21 "102030" v1 (-3)).
  - lia.
  - lia.
  - simpl. discriminate.
Defined.

(** On a connection that reports itself closed, a send of at least one
    packet with a budget of at least one try fails with
    [CONNECTION_CLOSED] after a single call: nothing is written and
    nothing is retried. *)
Theorem sendData_closed_connection cfg enc env w command data version
    maxTries p rest :
  isConnected w = false ->
  0 < effectiveTries command
        (match maxTries with Some m => m | None => 5 end) ->
  enc data command version = p :: rest ->
  sendData cfg enc env w command data version maxTries
  = (record p (Throws (newDeviceError CONNECTION_CLOSED)) w,
     Rejected (ThrownDeviceError (newDeviceError CONNECTION_CLOSED))).
Proof.
  intros Hdown HM Henc. unfold sendData. rewrite Henc. simpl.
  unfold dataListEntry. fold (effectiveTries command
                                match maxTries with
                                | Some m => m
                                | None => 5
                                end).
  set (M := effectiveTries command
              match maxTries with Some m => m | None => 5 end) in *.
  destruct (Z.to_nat M) as [|k] eqn:Hk; [lia|].
  cbn [retry].
  assert (H1 : (1 <=? M) = true) by (apply Z.leb_le; lia).
  assert (H2 : (M + 1 <=? M) = false) by (apply Z.leb_gt; lia).
  rewrite H1. unfold writePacket at 1. rewrite Hdown. simpl negb. cbv iota.
  cbv zeta. simpl await. cbv iota.
  change (includes connectionFatal
            (errorType (newDeviceError CONNECTION_CLOSED))) with true.
  cbv iota. rewrite H2. reflexivity.
Qed.

Lemma sendData_closed_connection_witness :
  sendData sampleConfig twoPackets acksAll (freshWorld false) 21 "102030" v1
    None
  = (record "A" (Throws (newDeviceError CONNECTION_CLOSED))
       (freshWorld false),
     Rejected (ThrownDeviceError (newDeviceError CONNECTION_CLOSED))).
Proof.
  apply (sendData_closed_connection sampleConfig twoPackets acksAll
           (freshWorld false) 21 "102030" v1 None "A" ["B"]).
  - reflexivity.
  - reflexivity.
  - reflexivity.
Defined.

Lemma retry_idle cfg env d version M :
  forall (fuel : nat) (tries : Z) (fe : option Thrown) (w w' : World) r,
    idle w = true ->
    retry cfg env fuel d version M tries fe w = Some (w', r) ->
    r <> Pending ->
    idle w' = true.
Proof.
  induction fuel as [|fuel IH]; intros tries fe w w' r Hidle Hr Hs;
    [discriminate|].
  simpl in Hr. destruct (tries <=? M).
  - pose proof (writePacket_settled_idle cfg w d version
                  (env (List.length (invocations w))) Hidle) as Hi.
    destruct (writePacket cfg w d version
                (env (List.length (invocations w)))) as [w1 c].
    simpl in Hi.
    destruct c as [e | [ | e | ]]; simpl in Hr.
    + eapply IH; [apply Hi; discriminate | exact Hr | exact Hs].
    + injection Hr as <- <-. apply Hi. discriminate.
    + eapply IH; [apply Hi; discriminate | exact Hr | exact Hs].
    + injection Hr as <- <-. contradiction Hs. reflexivity.
  - destruct fe as [x|]; [destruct (truthy x)|];
      injection Hr as <- <-; exact Hidle.
Qed.

Lemma forOf_idle cfg env command version maxTries (ps : list Packet) :
  forall w,
    idle w = true ->
    snd (forOf (map (dataListEntry cfg env command version maxTries) ps) w)
    <> Pending ->
    idle (fst (forOf (map (dataListEntry cfg env command version maxTries)
                        ps) w)) = true.
Proof.
  induction ps as [|d ps IH]; intros w Hidle Hs; [exact Hidle|].
  simpl in *. unfold dataListEntry in *.
  destruct (retry cfg env _ d version _ 1 None w) as [[w1 r1]|] eqn:Hr.
  - destruct r1 as [ | x | ].
    + apply IH; [|exact Hs].
      eapply retry_idle; [exact Hidle | exact Hr | discriminate].
    + assert (Hi : idle w1 = true)
        by (eapply retry_idle; [exact Hidle | exact Hr | discriminate]).
      destruct (truthy x); exact Hi.
    + contradiction Hs. reflexivity.
  - contradiction Hs. reflexivity.
Qed.

(** A send that starts on an idle connection and comes to an end, by
    success or by failure, leaves no listener registered and no timer
    scheduled. *)
Theorem sendData_no_leak cfg enc env w command data version maxTries :
  idle w = true ->
  snd (sendData cfg enc env w command data version maxTries) <> Pending ->
  listeners
    (connection (fst (sendData cfg enc env w command data version maxTries)))
  = []
  /\ timers (fst (sendData cfg enc env w command data version maxTries))
     = [].
Proof.
  intros Hidle Hs.
  pose proof (forOf_idle cfg env command version
                (match maxTries with Some m => m | None => 5 end)
                (enc data command version) w Hidle Hs) as Hi.
  fold (sendData cfg enc env w command data version maxTries) in Hi.
  unfold idle in Hi.
  destruct (listeners
              (connection
                 (fst (sendData cfg enc env w command data version
                         maxTries)))); [|discriminate].
  destruct (timers (fst (sendData cfg enc env w command data version
                           maxTries))); [|discriminate].
  split; reflexivity.
Qed.

Lemma sendData_no_leak_witness :
  listeners
    (connection (fst (sendData sampleConfig twoPackets closesOnSecond
                        (freshWorld true) 21 "102030" v1 None)))
  = []
  /\ timers (fst (sendData sampleConfig twoPackets closesOnSecond
                    (freshWorld true) 21 "102030" v1 None))
     = [].
Proof.
  apply (sendData_no_leak sampleConfig twoPackets closesOnSecond
           (freshWorld true) 21 "102030" v1 None).
  - reflexivity.
  - simpl. discriminate.
Defined.

Lemma retry_settles cfg env d version M :
  (forall n,
      forallb (knownAck (commands_v1 cfg)) (env n) = true
      /\ expires (ACK_TIME (usableConstantsFor cfg version)) (env n) = true) ->
  forall (fuel : nat) (tries : Z) (fe : option Thrown) (w w' : World) r,
    idle w = true ->
    retry cfg env fuel d version M tries fe w = Some (w', r) ->
    r <> Pending /\ idle w' = true.
Proof.
  intros Henv.
  induction fuel as [|fuel IH]; intros tries fe w w' r Hidle Hr;
    [discriminate|].
  simpl in Hr. destruct (tries <=? M).
  - pose proof (writePacket_settled_idle cfg w d version
                  (env (List.length (invocations w))) Hidle) as Hi.
    assert (Hs : snd (writePacket cfg w d version
                        (env (List.length (invocations w))))
                 <> Returns Pending).
    { destruct (Henv (List.length (invocations w))) as [Hk He].
      destruct (isConnected w) eqn:Hup.
      - destruct (writePacket_settles cfg w d version _ Hidle Hup Hk He)
          as (p & Hp & Hset & _).
        rewrite Hp. destruct p; try discriminate.
      - unfold writePacket. rewrite Hup. simpl. discriminate. }
    specialize (Hi Hs).
    destruct (writePacket cfg w d version
                (env (List.length (invocations w)))) as [w1 c].
    simpl in Hi, Hs.
    destruct c as [e | [ | e | ]]; simpl in Hr.
    + eapply IH; eassumption.
    + injection Hr as <- <-. split; [discriminate | exact Hi].
    + eapply IH; eassumption.
    + contradiction Hs. reflexivity.
  - destruct fe as [x|]; [destruct (truthy x)|];
      injection Hr as <- <-; split; try discriminate; exact Hidle.
Qed.

Lemma forOf_settles cfg env command version maxTries (ps : list Packet) :
  (forall n,
      forallb (knownAck (commands_v1 cfg)) (env n) = true
      /\ expires (ACK_TIME (usableConstantsFor cfg version)) (env n) = true) ->
  forall w,
    idle w = true ->
    snd (forOf (map (dataListEntry cfg env command version maxTries) ps) w)
    <> Pending.
Proof.
  intros Henv. induction ps as [|d ps IH]; intros w Hidle; [discriminate|].
  simpl.
  destruct (dataListEntry_PacketRun cfg env command version maxTries d w)
    as (L & _ & Hrun & _).
  unfold dataListEntry in *.
  destruct (retry cfg env _ d version _ 1 None w) as [[w1 r1]|] eqn:Hr.
  - destruct (retry_settles cfg env d version _ Henv _ _ _ _ _ _ Hidle Hr)
      as [Hs Hi].
    destruct r1 as [ | x | ].
    + apply IH. exact Hi.
    + destruct (truthy x); discriminate.
    + contradiction Hs. reflexivity.
  - exfalso.
    destruct (retry_PacketRun cfg env d version
                (if command =? 255 then 1 else maxTries)
                (S (Z.to_nat (if command =? 255 then 1 else maxTries)))
                1 None w) as (w' & r & L' & Hsome & _).
    { replace ((if command =? 255 then 1 else maxTries) + 1 - 1)
        with (if command =? 255 then 1 else maxTries) by lia. lia. }
    rewrite Hsome in Hr. discriminate.
Qed.

(** As long as the device only answers with the ACK or the NACK code and
    the events after each call reach the acknowledgment deadline, a send
    started on an idle connection comes to an end: it succeeds or fails,
    it never stays pending. *)
Theorem sendData_settles cfg enc env w command data version maxTries :
  idle w = true ->
  (forall n,
      forallb (knownAck (commands_v1 cfg)) (env n) = true
      /\ expires (ACK_TIME (usableConstantsFor cfg version)) (env n) = true) ->
  snd (sendData cfg enc env w command data version maxTries) <> Pending.
Proof.
  intros Hidle Henv. unfold sendData.
  apply forOf_settles; assumption.
Qed.

Lemma sendData_settles_witness :
  snd (sendData sampleConfig twoPackets silent (freshWorld true)
         21 "102030" v1 (Some 3)) <> Pending.
Proof.
  apply (sendData_settles sampleConfig twoPackets silent (freshWorld true)
           21 "102030" v1 (Some 3)).
  - reflexivity.
  - intros n. split; reflexivity.
Defined.




Lemma PacketRun_exhausted d M tries fe L r :
  PacketRun d M tries fe L r ->
  forallb (fun a => negb (isFatal (snd a))) L = true ->
  forallb isFailure L = true ->
  List.length L = Z.to_nat (M + 1 - tries).
Proof.
  induction 1; intros Hnf HF.
  - simpl. lia.
  - discriminate HF.
  - discriminate HF.
  - cbn [forallb snd] in Hnf, HF.
    apply andb_prop in Hnf. destruct Hnf as [Hc Hnf].
    apply andb_prop in HF. destruct HF as [_ HF].
    assert (Hinc : includes connectionFatal (errorType e) = false).
    { unfold isFatal in Hc. rewrite H0 in Hc.
      destruct (includes connectionFatal (errorType e));
        [discriminate | reflexivity]. }
    rewrite Hinc in IHPacketRun. cbn [List.length].
    rewrite (IHPacketRun Hnf HF). lia.
Qed.

Lemma failuresSinceAck_length (L : list (Packet * Completion)) :
  forallb isFailure L = true ->
  List.length (failuresSinceAck [] L) = List.length L.
Proof.
  induction L as [|a L IH]; intros HL; [reflexivity|].
  pose proof HL as HL'. simpl in HL'. apply andb_prop in HL'.
  destruct HL' as [Ha HL'].
  unfold isFailure in Ha. simpl.
  destruct (failureOf (snd a)) as [e|]; [|discriminate].
  rewrite (failuresSinceAck_failures L HL' [e]). simpl.
  rewrite (IH HL'). reflexivity.
Qed.

Lemma Transcript_exhausted M ps L r :
  Transcript M ps L r ->
  forall x, r = Rejected x ->
  forallb (fun a => negb (isFatal (snd a))) L = true ->
  List.length (failuresSinceAck [] L) = Z.to_nat M.
Proof.
  intros HT.
  induction HT as [ | d ps L1 L2 r H1 HT IH | d ps L x0 H1 | d ps L H1 ];
    intros x Hx Hnf; try discriminate.
  - rewrite forallb_app in Hnf. apply andb_prop in Hnf.
    destruct Hnf as [_ Hnf].
    apply PacketRun_shape in H1. destruct H1 as (F & -> & _).
    rewrite <- app_assoc. simpl.
    rewrite failuresSinceAck_reset by reflexivity. eapply IH; eassumption.
  - pose proof (PacketRun_shape _ _ _ _ _ _ H1) as HF. simpl in HF.
    rewrite (failuresSinceAck_length L HF),
      (PacketRun_exhausted _ _ _ _ _ _ H1 Hnf HF).
    f_equal. lia.
Qed.

(** A packet is given up only after a connection-fatal failure or after
    [_maxTries] failed attempts: when a send fails and none of its calls
    failed with a connection-fatal kind, the packet it failed on was
    attempted exactly [_maxTries] times (not at all when [_maxTries] is
    below one). *)
Theorem sendData_exhausts_budget cfg enc env w command data version
    maxTries :
  exists L,
    invocations (fst (sendData cfg enc env w command data version maxTries))
    = invocations w ++ L
    /\ forall x,
        snd (sendData cfg enc env w command data version maxTries)
        = Rejected x ->
        forallb (fun a => negb (isFatal (snd a))) L = true ->
        List.length (failuresSinceAck [] L)
        = Z.to_nat (effectiveTries command
                      (match maxTries with Some m => m | None => 5 end)).
Proof.
  destruct (sendData_Transcript cfg enc env w command data version maxTries)
    as (L & Hi & HT & _).
  exists L. split; [exact Hi|].
  intros x Hx Hnf. eapply Transcript_exhausted; eassumption.
Qed.

(** The hang of [writePacket] on an unknown command code reaches the
    caller of [sendData]: when the device answers the first packet with a
    code that is neither ACK nor NACK and the write does not fail
    afterwards, the send never settles, whatever the budget of tries, and
    only the first packet is ever written. *)
Theorem sendData_unknown_ack_hangs cfg enc env w command data version
    maxTries p rest pre ePacket post :
  idle w = true -> isConnected w = true ->
  0 < effectiveTries command
        (match maxTries with Some m => m | None => 5 end) ->
  enc data command version = p :: rest ->
  env (List.length (invocations w)) = pre ++ EmitAck ePacket :: post ->
  quiet (ACK_TIME (usableConstantsFor cfg version)) pre = true ->
  commandType ePacket <> ACK_PACKET (commands_v1 cfg) ->
  commandType ePacket <> NACK_PACKET (commands_v1 cfg) ->
  forallb (fun ev => negb (isWriteFails ev)) post = true ->
  snd (sendData cfg enc env w command data version maxTries) = Pending
  /\ written
       (connection
          (fst (sendData cfg enc env w command data version maxTries)))
     = written (connection w) ++ [p]
  /\ List.length
       (invocations
          (fst (sendData cfg enc env w command data version maxTries)))
     = S (List.length (invocations w)).
Proof.
  intros Hidle Hup HM Henc Henv Hq Hack Hnack Hpost.
  destruct (writePacket_after_quiet cfg w p version pre
              (EmitAck ePacket :: post) Hidle Hup Hq) as (t' & up' & Hw).
  cbv zeta in Hw.
  rewrite run_cons, deliver_armed_ack, (classify_unknown _ _ Hack Hnack)
    in Hw.
  destruct (run_released w p (commands_v1 cfg) post t' up' true Pending)
    as (t'' & up'' & fl'' & p'' & Hrun & _ & Hn).
  destruct (Hn Hpost) as [-> ->]. rewrite Hrun in Hw. simpl in Hw.
  unfold sendData. rewrite Henc. simpl.
  unfold dataListEntry.
  fold (effectiveTries command
          match maxTries with Some m => m | None => 5 end).
  set (M := effectiveTries command
              match maxTries with Some m => m | None => 5 end) in *.
  cbn [retry].
  assert (H1 : (1 <=? M) = true) by (apply Z.leb_le; lia).
  rewrite H1, Henv, Hw. simpl. rewrite length_app. simpl.
  repeat split. lia.
Qed.

Lemma sendData_unknown_ack_hangs_witness :
  snd (sendData sampleConfig twoPackets answersUnknown (freshWorld true)
         21 "102030" v1 None) = Pending
  /\ written
       (connection
          (fst (sendData sampleConfig twoPackets answersUnknown
                  (freshWorld true) 21 "102030" v1 None)))
     = written (connection (freshWorld true)) ++ ["A"]
  /\ List.length
       (invocations
          (fst (sendData sampleConfig twoPackets answersUnknown
                  (freshWorld true) 21 "102030" v1 None)))
     = S (List.length (invocations (freshWorld true))).
Proof.
  apply (sendData_unknown_ack_hangs sampleConfig twoPackets answersUnknown
           (freshWorld true) 21 "102030" v1 None "A" ["B"]
           [Elapse 5] (mkPacketData 99) [Elapse 5000]).
  - reflexivity.
  - reflexivity.
  - reflexivity.
  - reflexivity.
  - reflexivity.
  - reflexivity.
  - simpl. lia.
  - simpl. lia.
  - reflexivity.
Defined.
